(** * Scoring core of centrack / cenfind: ROI geometry, assignment, metrics

    A shallow embedding of the Python sources

      - [src/centrack/annotation.py]            (Centre, BBox, Contour)
      - [src/src/cenfind/core/outline.py]       (Centre, Contour.centre)
      - [src/src/cenfind/core/measure.py]       (assign, field_metrics,
                                                 field_score_frequency)
      - [src/src/centrack/commands/score.py]    (assign, nearest nucleus, gated)
      - [src/centrack/score.py]                 (assign, nearest nucleus, forced)
      - [src/src/cenfind/cli/score.py]          (save_foci)

    Python integers are [Z]; Python floats are idealised as exact rationals
    [Q] (no rounding error, no overflow); a raised exception is a value of
    [exn] carried by [result]. Functions of external libraries (OpenCV, numpy,
    pandas, spotipy) are either parameters of a Section or small models that
    are marked as such. *)

From Stdlib Require Import String Ascii DecimalString.
From Stdlib Require Import ZArith QArith Qround List Bool Lia Permutation.
From Equations Require Import Equations.
Import ListNotations.

Set Implicit Arguments.
Local Open Scope Z_scope.

(** ** Python preliminaries *)

Module Py.

(** The exceptions the modelled code can raise. *)
Inductive exn : Type :=
| ValueError (msg : string)
| IndexError (msg : string)
| ZeroDivisionError (msg : string)
| AttributeError (msg : string).

(** Outcome of a call: a value, or a raised exception. *)
Inductive result (A : Type) : Type :=
| Ok (a : A)
| Raise (e : exn).

Arguments Ok {A} a.
Arguments Raise {A} e.

Definition bind {A B : Type} (m : result A) (k : A -> result B) : result B :=
  match m with
  | Ok a => k a
  | Raise e => Raise e
  end.

Definition returns {A : Type} (m : result A) : Prop :=
  exists a, m = Ok a.

(** [l.pop()]: remove and return the last item; [None] on an empty list
    (the loops below only pop after testing the list for emptiness). *)
Fixpoint pop {A : Type} (l : list A) : option (A * list A) :=
  match l with
  | [] => None
  | x :: r =>
      match pop r with
      | None => Some (x, [])
      | Some (y, r') => Some (y, x :: r')
      end
  end.

(** [len(l)] *)
Definition len {A : Type} (l : list A) : Z := Z.of_nat (List.length l).

(** [a > b] on floats. *)
Definition Qgtb (a b : Q) : bool := negb (Qle_bool a b).

(** [a / b] on floats: ZeroDivisionError when [b] is zero. *)
Definition truediv (a b : Q) : result Q :=
  if Qeq_bool b 0 then Raise (ZeroDivisionError "float division by zero")
  else Ok (a / b)%Q.

(** [int(x)] on a float: truncation towards zero. *)
Definition int (x : Q) : Z := Z.quot (Qnum x) (Zpos (Qden x)).

(** Remembering the equation of a scrutinee in a well-founded definition. *)
Definition inspect {A : Type} (a : A) : {b : A | a = b} := exist _ a eq_refl.

End Py.

Import Py.

Notation "x <- m ;; k" := (Py.bind m (fun x => k))
  (at level 61, m at next level, right associativity).

(** ** More of Python and numpy *)

Module Builtins.

(** [a // b] on integers: floor division, ZeroDivisionError when [b] is
    zero ([Z.div] rounds towards minus infinity, as Python does). *)
Definition floordiv (a b : Z) : result Z :=
  if b =? 0 then Raise (ZeroDivisionError "integer division or modulo by zero")
  else Ok (a / b).

(** [l[i]]: a negative index counts from the end; IndexError outside the
    list. *)
Definition getitem {A : Type} (l : list A) (i : Z) : result A :=
  let n := len l in
  let j := if i <? 0 then i + n else i in
  if (j <? 0) || (n <=? j) then Raise (IndexError "list index out of range")
  else match nth_error l (Z.to_nat j) with
       | Some x => Ok x
       | None => Raise (IndexError "list index out of range")
       end.

(** [stack[i]] on the first axis of a numpy array: as for a list, with
    numpy's IndexError (its message, which quotes the index and the size,
    is abridged). *)
Definition take_axis0 {A : Type} (stack : list A) (i : Z) : result A :=
  let n := len stack in
  let j := if i <? 0 then i + n else i in
  if (j <? 0) || (n <=? j)
  then Raise (IndexError "index is out of bounds for axis 0")
  else match nth_error stack (Z.to_nat j) with
       | Some x => Ok x
       | None => Raise (IndexError "index is out of bounds for axis 0")
       end.

(** [enumerate(l)] *)
Definition enumerate {A : Type} (l : list A) : list (Z * A) :=
  combine (map Z.of_nat (seq 0 (List.length l))) l.


(** [s.split(sep)] for a non-empty [sep]: the pieces between the
    occurrences of [sep], found from the left and not overlapping. [skip]
    counts the characters of an occurrence still to be passed, [cur] is the
    piece being read. *)
Fixpoint split_aux (sep s : string) (skip : nat) (cur : string) : list string :=
  match s with
  | EmptyString => [cur]
  | String c s' =>
      match skip with
      | S k => split_aux sep s' k cur
      | O =>
          if prefix sep s
          then cur :: split_aux sep s' (String.length sep - 1) EmptyString
          else split_aux sep s' 0 (cur ++ String c EmptyString)%string
      end
  end.

Definition split (s sep : string) : result (list string) :=
  if String.eqb sep EmptyString then Raise (ValueError "empty separator")
  else Ok (split_aux sep s 0 EmptyString).

(** [x in l] for a list of strings. *)
Definition contains (l : list string) (x : string) : bool :=
  existsb (String.eqb x) l.

(** The bound [i] of a slice of a sequence of length [n] (step 1): a
    negative bound counts from the end, and bounds are clipped to
    [0 .. n]. *)
Definition slice_bound (i n : Z) : Z :=
  if i <? 0 then Z.max (i + n) 0 else Z.min i n.

(** [l[start:stop]] *)
Definition slice {A : Type} (l : list A) (start stop : Z) : list A :=
  let n := len l in
  let a := slice_bound start n in
  let b := slice_bound stop n in
  firstn (Z.to_nat (b - a)) (skipn (Z.to_nat a) l).

(** A two-dimensional numpy array, as the list of its rows. *)
Definition array2 : Type := list (list Z).

(** [image[r0:r1, c0:c1]] *)
Definition slice2 (image : array2) (r0 r1 c0 c1 : Z) : array2 :=
  map (fun row => slice row c0 c1) (slice image r0 r1).

(** [image.shape] of a two-dimensional array. *)
Definition shape2 (image : array2) : Z * Z :=
  (len image, len (hd [] image)).

(** [np.clip(x, lo, hi)]: [minimum(hi, maximum(x, lo))]. *)
Definition clip (x lo hi : Z) : Z := Z.min hi (Z.max x lo).

(** [np.sum] of a two-dimensional array. *)
Definition sum2 (image : array2) : Z :=
  fold_right Z.add 0 (map (fold_right Z.add 0) image).

End Builtins.

(** ** [cenfind.core.measure.assign]: all-within-threshold assignment *)

Module Measure.

Section Assign.

Variables Focus Nucleus : Type.

(** [cenfind.core.helpers.signed_distance] is imported by [measure.py] but is
    not among the sources; it is a parameter here. It returns a float. *)
Variable signed_distance : Focus -> Nucleus -> Q.

(** The inner [for f in foci] loop: [assigned] grows by [append]. *)
Definition assign_inner (foci : list Focus) (n : Nucleus) (vicinity : Z)
  : list Focus :=
  fold_left
    (fun assigned f =>
       let distance := signed_distance f n in
       if Qgtb distance (inject_Z vicinity) then assigned ++ [f] else assigned)
    foci [].

(** The [while _nuclei:] loop: each round pops the last nucleus of the
    private copy and appends one pair to [pairs]. *)
Equations? assign_loop (foci : list Focus) (vicinity : Z)
  (_nuclei : list Nucleus) (pairs : list (Nucleus * list Focus))
  : list (Nucleus * list Focus) by wf (length _nuclei) lt :=
  assign_loop foci vicinity _nuclei pairs with inspect (pop _nuclei) => {
    | exist _ None _ => pairs
    | exist _ (Some (n, rest)) Hpop =>
        assign_loop foci vicinity rest (pairs ++ [(n, assign_inner foci n vicinity)])
  }.
Proof.
  clear assign_loop.
  revert n rest Hpop. induction _nuclei as [|x r IH]; simpl; intros n rest H.
  - discriminate.
  - destruct (pop r) as [[y r']|] eqn:E.
    + inversion H; subst. simpl. specialize (IH _ _ eq_refl). lia.
    + inversion H; subst. simpl. lia.
Qed.

Definition assign (foci : list Focus) (nuclei : list Nucleus) (vicinity : Z)
  : list (Nucleus * list Focus) :=
  let pairs := [] in
  let _nuclei := nuclei in   (* nuclei.copy(): the caller's list is untouched *)
  assign_loop foci vicinity _nuclei pairs.

End Assign.

(** *** [field_metrics] *)

(** [field.dataset.path.name] and [field.name] are all that is read of a
    [Field]. *)
Record Field : Type := mkField { dataset_path_name : string; name : string }.

(** The attributes [precision], [recall], [f1] read from the matching
    result (a [SimpleNamespace] in the empty case). *)
Record Stats : Type := mkStats { precision : Q; recall : Q; f1 : Q }.

(** Values stored in the returned dictionary. *)
Inductive value : Type :=
| Str (s : string)
| Int (z : Z)
| Float (q : Q).

(** A dictionary literal, keys in the order of the source. *)
Definition dict : Type := list (string * value).

Fixpoint get (d : dict) (k : string) : option value :=
  match d with
  | [] => None
  | (k', v) :: r => if String.eqb k' k then Some v else get r k
  end.

(** [all(t)]: every item is truthy; an integer is truthy when non-zero. *)
Definition all (t : list Z) : bool := forallb (fun n => negb (n =? 0)) t.

(** Round half to even, on an exact rational. *)
Definition rint (x : Q) : Z :=
  let f := Qfloor x in
  match Qcompare (x - inject_Z f) (1 # 2) with
  | Lt => f
  | Gt => f + 1
  | Eq => if Z.even f then f else f + 1
  end.

(** [np.round(x, decimals)]: scale, round half to even, scale back. *)
Definition np_round (x : Q) (decimals : nat) : Q :=
  let scale := 10 ^ Z.of_nat decimals in
  Qred (inject_Z (rint (x * inject_Z scale)) / inject_Z scale).

Section FieldMetrics.

(** [spotipy.utils.points_matching] is external: a parameter, which may
    raise. An array of points is the list of its rows. *)
Variable points_matching :
  list (Z * Z) -> list (Z * Z) -> Z -> result Stats.

Definition field_metrics (field : Field) (channel : Z)
  (annotation predictions : list (Z * Z)) (tolerance : Z) : result dict :=
  res <- (if Z.b2z (all [len predictions; len annotation]) >? 0
          then points_matching annotation predictions tolerance
          else
            (* logging.warning(...) *)
            Ok (mkStats 0 0 0)) ;;
  let perf :=
    [ ("dataset"%string, Str (dataset_path_name field));
      ("field"%string, Str (name field));
      ("channel"%string, Int channel);
      ("n_actual"%string, Int (len annotation));
      ("n_preds"%string, Int (len predictions));
      ("tolerance"%string, Int tolerance);
      ("precision"%string, Float (np_round (precision res) 3));
      ("recall"%string, Float (np_round (recall res) 3));
      ("f1"%string, Float (np_round (f1 res) 3)) ] in
  Ok perf.

End FieldMetrics.

(** *** [field_score_frequency] *)

(** A row of the scores table built by [field_score]; its [score] is
    [len(_foci)], a count. *)
Record ScoreRecord : Type := mkScore {
  fov : string;
  channel : Z;
  nucleus : Z * Z;
  score : nat;
  is_full : bool
}.

(** A bin edge: an integer or [np.inf]. *)
Inductive edge : Type :=
| Fin (z : Z)
| Inf.

Definition cuts : list edge := [Fin 0; Fin 1; Fin 2; Fin 3; Fin 4; Fin 5; Inf].

(** ['0 1 2 3 4 +'.split(' ')] *)
Definition labels : list string :=
  ["0"; "1"; "2"; "3"; "4"; "+"]%string.

Definition edge_leb (e : edge) (x : Z) : bool :=
  match e with
  | Fin z => z <=? x
  | Inf => false
  end.

(** [bins.searchsorted(x, side='right')] for increasing [bins]: the number
    of edges that are [<= x]. *)
Definition searchsorted_right (bins : list edge) (x : Z) : nat :=
  List.length (filter (fun e => edge_leb e x) bins).

(** [pd.cut(x, bins, right=False, labels=labels, include_lowest=True)] on
    one value: the label of the interval [bins[i] <= x < bins[i+1]], and
    [None] (NaN) for a value outside every interval. *)
Definition cut (x : Z) (bins : list edge) (labels : list string)
  : option string :=
  let ids := searchsorted_right bins x in
  if Nat.eqb ids 0 || Nat.eqb ids (List.length bins) then None
  else nth_error labels (ids - 1).

Definition key : Type := (string * Z)%type.

Definition key_eqb (a b : key) : bool :=
  String.eqb (fst a) (fst b) && (snd a =? snd b).

(** Order of the [(fov, channel)] index: by [fov], then by [channel]. *)
Definition key_leb (a b : key) : bool :=
  match String.compare (fst a) (fst b) with
  | Lt => true
  | Gt => false
  | Eq => snd a <=? snd b
  end.

(** The sorted index of group keys, each key once. *)
Fixpoint insert_key (k : key) (ks : list key) : list key :=
  match ks with
  | [] => [k]
  | k' :: r =>
      if key_eqb k k' then ks
      else if key_leb k k' then k :: ks
      else k' :: insert_key k r
  end.

Definition group_keys (ks : list key) : list key :=
  fold_right insert_key [] ks.

(** Number of rows of group [k] whose category is [l]. *)
Definition count_cat (rows : list (key * option string)) (k : key)
  (l : string) : nat :=
  List.length
    (filter (fun r => key_eqb (fst r) k &&
                      match snd r with
                      | Some l' => String.eqb l' l
                      | None => false
                      end) rows).

(** The pivoted frequency table: one row per [(fov, channel)], one column
    per category; counting a categorical series per group yields every
    category, those never observed with a count of zero. *)
Definition field_score_frequency (df : list ScoreRecord)
  : list (key * list (string * nat)) :=
  let result :=
    map (fun r => ((fov r, channel r), cut (Z.of_nat (score r)) cuts labels)) df in
  map (fun k => (k, map (fun l => (l, count_cat result k l)) labels))
      (group_keys (map fst result)).

End Measure.

(** ** OpenCV functions used by the ROI model

    [cv2] is an external library, not part of the repository. Its contours
    are sequences of integer points [(x, y)]. [Contour.centre] and
    [Contour.bbox] take the two calls below as parameters; the models here
    serve to evaluate them on concrete contours. *)

Module Cv2.

Definition point : Type := (Z * Z)%type.

Record Moments : Type := mkMoments { m00 : Q; m10 : Q; m01 : Q }.

(** Modelled from the spec: [cv2.moments] (OpenCV, absent from the sources)
    gives the image moments of the contour, from which the area-weighted
    centroid is taken. For a polygon OpenCV computes them by Green's
    formula, one term per edge [(xi_1, yi_1) -> (xi, yi)], starting from the
    edge that joins the last point to the first. *)
Definition moments_step (acc : point * (Z * Z * Z)) (p : point)
  : point * (Z * Z * Z) :=
  let '((xi_1, yi_1), (a00, a10, a01)) := acc in
  let '(xi, yi) := p in
  let dxy := xi_1 * yi - xi * yi_1 in
  let xii_1 := xi_1 + xi in
  let yii_1 := yi_1 + yi in
  (p, (a00 + dxy, a10 + dxy * xii_1, a01 + dxy * yii_1)).

Definition moments_sums (contour : list point) : Z * Z * Z :=
  match contour with
  | [] => (0, 0, 0)
  | p0 :: _ => snd (fold_left moments_step contour (last contour p0, (0, 0, 0)))
  end.

(** The sums are halved (resp. divided by six) and given the sign that makes
    the area non-negative; a contour with no area has all moments zero. *)
Definition moments (contour : list point) : Moments :=
  let '(a00, a10, a01) := moments_sums contour in
  if a00 =? 0 then mkMoments 0 0 0
  else if 0 <? a00
       then mkMoments (a00 # 2) (a10 # 6) (a01 # 6)
       else mkMoments (- a00 # 2) (- a10 # 6) (- a01 # 6).

(** Modelled from the spec: [cv2.boundingRect] (OpenCV, absent from the
    sources) gives the smallest enclosing axis-aligned rectangle of the
    contour, as the tuple [(x, y, w, h)] with [w = max x - min x + 1] and
    [h = max y - min y + 1] (pixels are counted, both ends included). *)
Definition min_list (d : Z) (l : list Z) : Z := fold_left Z.min l d.
Definition max_list (d : Z) (l : list Z) : Z := fold_left Z.max l d.

Definition boundingRect (contour : list point) : Z * Z * Z * Z :=
  match contour with
  | [] => (0, 0, 0, 0)
  | (x0, y0) :: rest =>
      let xmin := min_list x0 (map fst rest) in
      let xmax := max_list x0 (map fst rest) in
      let ymin := min_list y0 (map snd rest) in
      let ymax := max_list y0 (map snd rest) in
      (xmin, ymin, xmax - xmin + 1, ymax - ymin + 1)
  end.

End Cv2.

(** ** [centrack/annotation.py]: Centre, BBox, Contour *)

Module Annotation.

Record BBox : Type := mkBBox {
  top_left : Z * Z;
  bottom_right : Z * Z;
  bbox_idx : Z;
  bbox_label : string;
  bbox_confidence : Q
}.

Record Centre : Type := mkCentre {
  position : Z * Z;
  idx : Z;
  label : string;
  confidence : Q
}.

Record Contour : Type := mkContour {
  contour : list Cv2.point;
  contour_label : string;
  contour_idx : Z;
  contour_confidence : Q
}.

Module CentreM.
Definition row (self : Centre) : Z := fst (position self).
Definition col (self : Centre) : Z := snd (position self).
Definition dims (self : Centre) : Z * Z := (0, 0).
Definition height (self : Centre) : Z := 0.
Definition width (self : Centre) : Z := 0.
Definition centre (self : Centre) : Z * Z := (row self, col self).
Definition bbox (self : Centre) : BBox :=
    let top_left := (row self - 32, col self - 32) in
    let bottom_right := (row self + 32, col self + 32) in
    mkBBox top_left bottom_right (idx self) (label self) (confidence self).
End CentreM.

Module BBoxM.
Definition height (self : BBox) : Z :=
    let '(start_row, _) := top_left self in
    let '(stop_row, _) := bottom_right self in
    stop_row - start_row.
Definition width (self : BBox) : Z :=
    let '(_, start_col) := top_left self in
    let '(_, stop_col) := bottom_right self in
    stop_col - start_col.
Definition dims (self : BBox) : Z * Z := (height self, width self).
(** [//] is floor division, as [Z.div] is for a positive divisor. *)
Definition centre (self : BBox) : Centre :=
    let r_centre := (fst (bottom_right self) + fst (top_left self)) / 2 in
    let c_centre := (snd (bottom_right self) + snd (top_left self)) / 2 in
    mkCentre (r_centre, c_centre) (bbox_idx self) (bbox_label self)
      (bbox_confidence self).
Definition bbox (self : BBox) : BBox := self.
Definition extract (self : BBox) (image : Builtins.array2) : Builtins.array2 :=
  let '(start_row, start_col) := top_left self in
  let '(stop_row, stop_col) := bottom_right self in
  Builtins.slice2 image start_row stop_row start_col stop_col.
End BBoxM.

Module ContourM.

Section WithCv2.

(** The two OpenCV calls of the class, as parameters. *)
Variable cv2_moments : list Cv2.point -> Cv2.Moments.
Variable cv2_boundingRect : list Cv2.point -> Z * Z * Z * Z.

Definition dims (self : Contour) : Z * Z :=
  let '(_, _, h, w) := cv2_boundingRect (contour self) in
  (h, w).
Definition height (self : Contour) : Z := fst (dims self).
Definition width (self : Contour) : Z := snd (dims self).

(** The tuple returned by the call is bound to [r, c, h, w] in that order. *)
Definition bbox (self : Contour) : BBox :=
  let '(r, c, h, w) := cv2_boundingRect (contour self) in
  let top_left := (r, c) in
  let bottom_right := (r + h, c + w) in
  mkBBox top_left bottom_right (contour_idx self) (contour_label self)
    (contour_confidence self).

(** [1e-5] *)
Definition eps : Q := 1 # 100000.

Definition centre (self : Contour) : result Centre :=
  let moments := cv2_moments (contour self) in
  q_r <- truediv (Cv2.m01 moments) (Cv2.m00 moments + eps)%Q ;;
  let r_centre := int q_r in
  q_c <- truediv (Cv2.m10 moments) (Cv2.m00 moments + eps)%Q ;;
  let c_centre := int q_c in
  Ok (mkCentre (r_centre, c_centre) (contour_idx self) (contour_label self)
        (contour_confidence self)).

Definition extract (self : Contour) (plane : Builtins.array2) : Builtins.array2 :=
  BBoxM.extract (bbox self) plane.

End WithCv2.

End ContourM.

(** [Centre.extract]: the crop of the 64 x 64 box of the point. *)
Definition Centre_extract (self : Centre) (plane : Builtins.array2)
  : Builtins.array2 :=
  BBoxM.extract (CentreM.bbox self) plane.

(** A point [(row, col)] lies within a box when it is between its corners on
    both axes (corners included). *)
Definition within (p : Z * Z) (b : BBox) : Prop :=
  fst (top_left b) <= fst p <= fst (bottom_right b) /\
  snd (top_left b) <= snd p <= snd (bottom_right b).

Definition withinb (p : Z * Z) (b : BBox) : bool :=
  (fst (top_left b) <=? fst p) && (fst p <=? fst (bottom_right b)) &&
  (snd (top_left b) <=? snd p) && (snd p <=? snd (bottom_right b)).

End Annotation.

(** ** [cenfind/core/outline.py]: Centre and Contour.centre *)

Module Outline.

Record Centre : Type := mkCentre {
  position : Z * Z;
  idx : Z;               (* default 0 *)
  label : string;        (* default "" *)
  confidence : Q         (* default 0 *)
}.

(** [Centre(position)] with the dataclass defaults. *)
Definition Centre_ (position : Z * Z) : Centre := mkCentre position 0 "" 0.

(** [int(row), int(col)]: the identity on integer coordinates. *)
Definition centre (self : Centre) : Z * Z :=
  let '(row, col) := position self in (row, col).

(** [np.asarray(self.centre)]: a one-dimensional array of two integers. *)
Definition to_numpy (self : Centre) : list Z :=
  let '(row, col) := centre self in [row; col].

Definition to_cv2 (self : Centre) : Z * Z :=
  let '(y, x) := centre self in (x, y).

Record Contour : Type := mkContour {
  contour : list Cv2.point;
  contour_label : string;
  contour_idx : Z;
  contour_confidence : Q
}.

Section WithCv2.

Variable cv2_moments : list Cv2.point -> Cv2.Moments.

Definition eps : Q := 1 # 100000.

Definition Contour_centre (self : Contour) : result Centre :=
  let moments := cv2_moments (contour self) in
  q_x <- truediv (Cv2.m10 moments) (Cv2.m00 moments + eps)%Q ;;
  let centre_x := int q_x in
  q_y <- truediv (Cv2.m01 moments) (Cv2.m00 moments + eps)%Q ;;
  let centre_y := int q_y in
  Ok (mkCentre (centre_y, centre_x) (contour_idx self) (contour_label self)
        (contour_confidence self)).

End WithCv2.

Section ResizeImage.

(** Images and the external [cv2.resize], called with the target size
    [dsize] (nearest-neighbour interpolation). *)
Variable Image : Type.
Variable shape : Image -> Z * Z.
Variable cv2_resize : Image -> Z * Z -> Image.

Definition resize_image (data : Image) (factor : Z) : result Image :=
  let '(height, width) := shape data in
  shrinkage_factor <- Builtins.floordiv height factor ;;
  height_scaled <- Builtins.floordiv height shrinkage_factor ;;
  width_scaled <- Builtins.floordiv width shrinkage_factor ;;
  let data_resized := cv2_resize data (height_scaled, width_scaled) in
  Ok data_resized.

End ResizeImage.

End Outline.

(** ** Nearest-nucleus assignment: [centrack/commands/score.py] and
    [centrack/score.py] *)

Module Score.

Import Annotation.

(** [max(iterable, key=key)]: the first item whose key no later item
    exceeds; ValueError on an empty iterable. *)
Fixpoint max_from {A : Type} (key : A -> Q) (best : A) (l : list A) : A :=
  match l with
  | [] => best
  | item :: r => max_from key (if Qgtb (key item) (key best) then item else best) r
  end.

Definition max {A : Type} (l : list A) (key : A -> Q) : result A :=
  match l with
  | [] => Raise (ValueError "max() arg is an empty sequence")
  | x :: r => Ok (max_from key x r)
  end.

Section WithCv2.

(** [cv2.pointPolygonTest(contour, pt, measureDist)] is external: the
    signed distance from [pt] to the contour, a float. *)
Variable pointPolygonTest : list Cv2.point -> Z * Z -> bool -> Q.

(** The list comprehension over [nuclei_list]. *)
Definition distances (c : Centre) (nuclei_list : list Contour)
  : list (Contour * Q) :=
  map (fun n => (n, pointPolygonTest (contour n) (CentreM.centre c) true))
      nuclei_list.

(** [src/src/centrack/commands/score.py], [assign]: a focus is kept with its
    nearest nucleus when the distance is above [-50]. *)
Definition assign_step (nuclei_list : list Contour)
  (acc : result (list (Centre * Contour))) (c : Centre)
  : result (list (Centre * Contour)) :=
  assigned <- acc ;;
  nucleus_nearest <- max (distances c nuclei_list) snd ;;
  if Qgtb (snd nucleus_nearest) (inject_Z (-50))
  then Ok (assigned ++ [(c, fst nucleus_nearest)])
  else Ok assigned.

Definition assign (foci_list : list Centre) (nuclei_list : list Contour)
  : result (list (Centre * Contour)) :=
  if len foci_list =? 0 then Raise (ValueError "Empty foci list")
  else if len nuclei_list =? 0 then Raise (ValueError "Empty nuclei list")
  else fold_left (assign_step nuclei_list) foci_list (Ok []).

(** [src/centrack/score.py], [assign]: the same search, every focus kept. *)
Definition assign_forced_step (nuclei_list : list Contour)
  (acc : result (list (Centre * Contour))) (c : Centre)
  : result (list (Centre * Contour)) :=
  assigned <- acc ;;
  nucleus_nearest <- max (distances c nuclei_list) snd ;;
  Ok (assigned ++ [(c, fst nucleus_nearest)]).

Definition assign_forced (foci_list : list Centre) (nuclei_list : list Contour)
  : result (list (Centre * Contour)) :=
  if len foci_list =? 0 then Raise (ValueError "Empty foci list")
  else if len nuclei_list =? 0 then Raise (ValueError "Empty nuclei list")
  else fold_left (assign_forced_step nuclei_list) foci_list (Ok []).

End WithCv2.

End Score.

(** ** [cenfind/cli/score.py]: [save_foci] *)

Module Cli.

Import Outline.

(** A numpy array of integers, of one or of two dimensions. *)
Inductive ndarray : Type :=
| Array1 (items : list Z)
| Array2 (rows : list (list Z)).

(** What the process can change: files written, and the log. *)
Record World : Type := mkWorld {
  files : list (string * string);
  log : list string
}.

(** A computation that reads and changes the world and may raise; the world
    at the raise is kept. *)
Definition M (A : Type) : Type := World -> result A * World.

Definition ret {A : Type} (a : A) : M A := fun w => (Ok a, w).
Definition raise {A : Type} (e : exn) : M A := fun w => (Raise e, w).
Definition mbind {A B : Type} (m : M A) (k : A -> M B) : M B :=
  fun w =>
    match m w with
    | (Ok a, w') => k a w'
    | (Raise e, w') => (Raise e, w')
    end.

Notation "x <~ m ;; k" := (mbind m (fun x => k))
  (at level 61, m at next level, right associativity).

Definition logger_info (msg : string) : M unit :=
  fun w => (Ok tt, mkWorld (files w) (log w ++ [msg])).

Definition write_file (dst : string) (text : string) : M unit :=
  fun w => (Ok tt, mkWorld ((dst, text) :: files w) (log w)).

(** Content of the file last written at [dst], if any. *)
Fixpoint read_file (fs : list (string * string)) (dst : string)
  : option string :=
  match fs with
  | [] => None
  | (p, text) :: r => if String.eqb p dst then Some text else read_file r dst
  end.

(** [np.stack(arrays)] on one-dimensional arrays: they become the rows;
    ValueError on an empty list or on rows of different lengths. *)
Definition np_stack (arrays : list (list Z)) : result ndarray :=
  match arrays with
  | [] => Raise (ValueError "need at least one array to stack")
  | a :: r =>
      if forallb (fun b => Nat.eqb (List.length b) (List.length a)) r
      then Ok (Array2 arrays)
      else Raise (ValueError "all input arrays must have the same shape")
  end.

(** [row[j]] for each [j] of [cols]. *)
Fixpoint take_cols (row : list Z) (cols : list nat) : result (list Z) :=
  match cols with
  | [] => Ok []
  | j :: r =>
      match nth_error row j with
      | None => Raise (IndexError "index is out of bounds for axis 1")
      | Some v => vs <- take_cols row r ;; Ok (v :: vs)
      end
  end.

Fixpoint map_rows (f : list Z -> result (list Z)) (rows : list (list Z))
  : result (list (list Z)) :=
  match rows with
  | [] => Ok []
  | row :: r => x <- f row ;; xs <- map_rows f r ;; Ok (x :: xs)
  end.

(** [array[:, cols]]: two indices, so the array must have two dimensions. *)
Definition index_columns (array : ndarray) (cols : list nat) : result ndarray :=
  match array with
  | Array1 _ =>
      Raise (IndexError
        "too many indices for array: array is 1-dimensional, but 2 were indexed")
  | Array2 rows => rows' <- map_rows (fun row => take_cols row cols) rows ;;
                   Ok (Array2 rows')
  end.

(** ['%u' % z]: the decimal digits of an integer. *)
Definition fmt_u (z : Z) : string := NilZero.string_of_int (Z.to_int z).

Definition newline : string := String (ascii_of_nat 10) EmptyString.

(** One line of [np.savetxt]: the formatted items joined by the delimiter. *)
Definition savetxt_line (delimiter : string) (row : list Z) : string :=
  String.concat delimiter (map fmt_u row).

(** [np.savetxt(dst, X, delimiter=delimiter, fmt='%u')]: one line per row
    (a one-dimensional array is written as one column). *)
Definition savetxt_lines (X : ndarray) (delimiter : string) : list string :=
  match X with
  | Array1 items => map (fun v => savetxt_line delimiter [v]) items
  | Array2 rows => map (savetxt_line delimiter) rows
  end.

Definition np_savetxt (dst : string) (X : ndarray) (delimiter : string) : M unit :=
  write_file dst
    (String.concat "" (map (fun l => (l ++ newline)%string) (savetxt_lines X delimiter))).

Definition lift {A : Type} (r : result A) : M A := fun w => (r, w).

Definition save_foci (foci_list : list Centre) (dst : string) : M unit :=
  array <~ (if len foci_list =? 0
            then
              let array := Array1 [] in
              _ <~ logger_info "No centriole detected" ;;
              ret array
            else lift (np_stack (map to_numpy foci_list))) ;;
  X <~ lift (index_columns array [1%nat; 0%nat]) ;;
  np_savetxt dst X ",".

End Cli.

(** ** [src/utils.py]: [cnt_centre], [markers_from] *)

Module Utils.

Section WithCv2.

Variable cv2_moments : list Cv2.point -> Cv2.Moments.

(** The centre of a contour, as [(c_x, c_y)]; the area moment is the
    divisor as it is. *)
Definition cnt_centre (contour : list Cv2.point) : result (Z * Z) :=
  let moments := cv2_moments contour in
  q_x <- truediv (Cv2.m10 moments) (Cv2.m00 moments) ;;
  let c_x := int q_x in
  q_y <- truediv (Cv2.m01 moments) (Cv2.m00 moments) ;;
  let c_y := int q_y in
  Ok (c_x, c_y).

End WithCv2.

(** The dictionary [{k: v for k, v in enumerate(markers)}], as its items in
    order. *)
Definition markers_from (dataset_name : string) (marker_sep : string)
  : result (list (Z * string)) :=
  parts <- Builtins.split dataset_name "_" ;;
  field <- Builtins.getitem parts (-2) ;;
  markers <- Builtins.split field marker_sep ;;
  let markers :=
    if negb (Builtins.contains markers "DAPI") then "DAPI"%string :: markers
    else markers in
  Ok (Builtins.enumerate markers).

End Utils.

(** ** [centrack/commands/status.py] and [centrack/describe.py]:
    [get_markers] (the two copies are the same) *)

Module Status.

(** [markers_list.insert(0, 'DAPI')] puts DAPI in front. *)
Definition get_markers (markers : string) (sep : string) : result (list string) :=
  markers_list <- Builtins.split markers sep ;;
  let markers_list :=
    if negb (Builtins.contains markers_list "DAPI")
    then "DAPI"%string :: markers_list
    else markers_list in
  Ok markers_list.

End Status.

(** ** [cenfind/core/structures.py]: [Nucleus.centre],
    [Centriole.intensity] *)

Module Structures.

Section WithCv2.

Variable cv2_moments : list Cv2.point -> Cv2.Moments.

(** [Nucleus.centre]: the tuple [(centre_y, centre_x)]. *)
Definition Nucleus_centre (contour : list Cv2.point) : result (Z * Z) :=
  let moments := cv2_moments contour in
  q_x <- truediv (Cv2.m10 moments) (Cv2.m00 moments + (1 # 100000))%Q ;;
  let centre_x := int q_x in
  q_y <- truediv (Cv2.m01 moments) (Cv2.m00 moments + (1 # 100000))%Q ;;
  let centre_y := int q_y in
  Ok (centre_y, centre_x).

End WithCv2.

(** An image of two dimensions, or a stack of channels. *)
Inductive image : Type :=
| Image2 (plane : Builtins.array2)
| Image3 (planes : list Builtins.array2).

(** [image.shape[-2:]] *)
Definition shape_last2 (img : image) : Z * Z :=
  match img with
  | Image2 plane => Builtins.shape2 plane
  | Image3 planes => Builtins.shape2 (hd [] planes)
  end.

(** [Centriole.intensity(image, k, channel)], for a centriole at [centre];
    [channel] is [None] by default. *)
Definition intensity (centre : Z * Z) (img : image) (k : Z)
  (channel : option Z) : result Z :=
  let '(r, c) := centre in
  let '(max_r, max_c) := shape_last2 img in
  let r_start := Builtins.clip (r - k) 0 max_r in
  let r_stop := Builtins.clip (r + k) 0 max_r in
  let c_start := Builtins.clip (c - k) 0 max_c in
  let c_stop := Builtins.clip (c + k) 0 max_c in
  match img with
  | Image2 plane =>
      Ok (Builtins.sum2 (Builtins.slice2 plane r_start r_stop c_start c_stop))
  | Image3 planes =>
      match channel with
      | None =>
          Raise (ValueError "Channel must be supplied when image has 3 dimensions")
      | Some ch =>
          plane <- Builtins.take_axis0 planes ch ;;
          Ok (Builtins.sum2 (Builtins.slice2 plane r_start r_stop c_start c_stop))
      end
  end.

End Structures.

(** ** [cenfind/core/measure.py]: [field_score] *)

Module FieldScore.

Section WithDetectors.

(** The field, the models and the nuclei are opaque here. [extract_nuclei]
    is the detector of [cenfind/core/detectors.py], which returns the list
    of the contours it found (the empty list when there is none); what it
    computes is left open. [spotnet] is imported from the same module but is
    not defined there, and [full_in_field] comes from
    [cenfind.core.helpers], which is not among the sources: they are
    parameters. *)
Variables FieldT ModelNuclei ModelFoci Nucleus : Type.
Variable field_name : FieldT -> string.
Variable extract_nuclei : FieldT -> Z -> ModelNuclei -> list Nucleus.
Variable spotnet : FieldT -> ModelFoci -> Z -> list (Z * Z).
Variable centre_position : Nucleus -> Z * Z.
Variable full_in_field : Z * Z -> FieldT -> Q -> bool.




End WithDetectors.

End FieldScore.

(** * Vocabulary of the statements *)

Section AssignVocabulary.

Variables Focus Nucleus : Type.
Variable signed_distance : Focus -> Nucleus -> Q.

(** The focus [f] is farther than [vicinity] on the inner side of [n]. *)
Definition exceeds (vicinity : Z) (n : Nucleus) (f : Focus) : bool :=
  Qgtb (signed_distance f n) (inject_Z vicinity).

End AssignVocabulary.

Section FirstMaximumVocabulary.

Variable A : Type.
Variable key : A -> Q.


End FirstMaximumVocabulary.

Section NearestVocabulary.

Variable pointPolygonTest : list Cv2.point -> Z * Z -> bool -> Q.

(** Signed distance from the focus [c] to the contour of the nucleus [n], as
    [assign] asks OpenCV for it. *)
Definition sdist (c : Annotation.Centre) (n : Annotation.Contour) : Q :=
  pointPolygonTest (Annotation.contour n) (Annotation.CentreM.centre c) true.

(** What one round of the loop adds for the focus [c], with nuclei
    [n0 :: ns]. *)
Definition kept (n0 : Annotation.Contour) (ns : list Annotation.Contour)
  (c : Annotation.Centre) : list (Annotation.Centre * Annotation.Contour) :=
  let m := Score.max_from (sdist c) n0 ns in
  if Qgtb (sdist c m) (inject_Z (-50)) then [(c, m)] else [].

End NearestVocabulary.



(** A matcher that always raises: with an empty prediction set it is never
    reached. *)
Definition failing_matcher (_ _ : list (Z * Z)) (_ : Z) : result Measure.Stats :=
  Raise (ValueError "points_matching").

(** The category column, as [field_score_frequency] builds it. *)
Definition categorised (df : list Measure.ScoreRecord)
  : list (Measure.key * option string) :=
  map (fun r => ((Measure.fov r, Measure.channel r),
                 Measure.cut (Z.of_nat (Measure.score r)) Measure.cuts
                   Measure.labels)) df.

(** Rows of [df] in group [k] whose score satisfies [p]. *)
Definition rows_where (df : list Measure.ScoreRecord) (k : Measure.key)
  (p : nat -> bool) : nat :=
  List.length
    (filter (fun r => Measure.key_eqb (Measure.fov r, Measure.channel r) k
                      && p (Measure.score r)) df).

(** The six columns of a row of the table, as counts of rows of [df]. *)
Definition bucket_counts (df : list Measure.ScoreRecord) (k : Measure.key)
  : list (string * nat) :=
  [ ("0"%string, rows_where df k (Nat.eqb 0));
    ("1"%string, rows_where df k (Nat.eqb 1));
    ("2"%string, rows_where df k (Nat.eqb 2));
    ("3"%string, rows_where df k (Nat.eqb 3));
    ("4"%string, rows_where df k (Nat.eqb 4));
    ("+"%string, rows_where df k (Nat.leb 5)) ].

(** The text line of one focus: column first, then row. *)
Definition foci_line (c : Outline.Centre) : string :=
  (Cli.fmt_u (snd (Outline.position c)) ++ ","
     ++ Cli.fmt_u (fst (Outline.position c)))%string.

Definition sumZ (l : list Z) : Z := fold_right Z.add 0 l.

(** Consecutive pairs of the chain [q, l0, l1, ...]. *)
Fixpoint edges (q : Cv2.point) (l : list Cv2.point)
  : list (Cv2.point * Cv2.point) :=
  match l with
  | [] => []
  | r :: l' => (q, r) :: edges r l'
  end.

(** The contribution of the edge [q -> r] to the three sums of Green's
    formula. *)
Definition e00 (e : Cv2.point * Cv2.point) : Z :=
  fst (fst e) * snd (snd e) - fst (snd e) * snd (fst e).
Definition e10 (e : Cv2.point * Cv2.point) : Z :=
  e00 e * (fst (fst e) + fst (snd e)).
Definition e01 (e : Cv2.point * Cv2.point) : Z :=
  e00 e * (snd (fst e) + snd (snd e)).

(** Twice the signed area of the triangle [(p0, q, r)], and its
    contribution to the first-order sums. *)
Definition t00 (p0 : Cv2.point) (e : Cv2.point * Cv2.point) : Z :=
  (fst (fst e) - fst p0) * (snd (snd e) - snd p0)
  - (fst (snd e) - fst p0) * (snd (fst e) - snd p0).
Definition t10 (p0 : Cv2.point) (e : Cv2.point * Cv2.point) : Z :=
  t00 p0 e * (fst p0 + fst (fst e) + fst (snd e)).
Definition t01 (p0 : Cv2.point) (e : Cv2.point * Cv2.point) : Z :=
  t00 p0 e * (snd p0 + snd (fst e) + snd (snd e)).


(** Twice the signed area of the triangle [(a, b, c)]: its sign tells which
    way the three points turn. *)
Definition turn (a b c : Cv2.point) : Z := t00 a (b, c).

(** The edges of the closed polygon, the one from the last point back to
    the first included. *)
Definition closed_edges (pts : list Cv2.point)
  : list (Cv2.point * Cv2.point) :=
  match pts with
  | [] => []
  | p0 :: _ => edges (last pts p0) pts
  end.

(** A polygon that is cut into triangles which all turn the same way
    ([s = 1] or [s = -1]): a triangle; or such a polygon with one more
    vertex [t] between two neighbours [p] and [q], the added triangle
    [(p, t, q)] turning like the others; the list may start at any vertex
    of the polygon. Convex polygons are of this kind, and so is, by the
    two-ears theorem, every polygon that does not cross itself. *)
Inductive ear_built (s : Z) : list Cv2.point -> Prop :=
| ear_triangle (a b c : Cv2.point) :
    0 <= s * turn a b c -> ear_built s [a; b; c]
| ear_attach (l1 : list Cv2.point) (p t q : Cv2.point) (l2 : list Cv2.point) :
    ear_built s (l1 ++ p :: q :: l2) -> 0 <= s * turn p t q ->
    ear_built s (l1 ++ p :: t :: q :: l2)
| ear_rotate (l1 l2 : list Cv2.point) :
    ear_built s (l1 ++ l2) -> ear_built s (l2 ++ l1).

Definition triangulated (pts : list Cv2.point) : Prop :=
  ear_built 1 pts \/ ear_built (-1) pts.

(** A test for it, by ear clipping: the second vertex [v] of the list is
    cut off when its triangle [(p, v, q)] turns the right way and, unless it
    is flat, holds no other vertex than [p] and [q]; otherwise the list is
    turned by one vertex. *)
Definition point_eqb (a b : Cv2.point) : bool :=
  (fst a =? fst b) && (snd a =? snd b).

Definition in_triangle (s : Z) (a b c v : Cv2.point) : bool :=
  (0 <=? s * turn a b v) && (0 <=? s * turn b c v) && (0 <=? s * turn c a v).

Definition is_ear (s : Z) (p v q : Cv2.point) (rest : list Cv2.point) : bool :=
  (0 <=? s * turn p v q)
  && ((turn p v q =? 0)
      || negb (existsb (fun x => negb (point_eqb x p) && negb (point_eqb x q)
                                 && in_triangle s p v q x) rest)).

Fixpoint ear_clip (fuel : nat) (s : Z) (pts : list Cv2.point) : bool :=
  match fuel with
  | O => false
  | S fuel' =>
      match pts with
      | p :: v :: q :: rest =>
          match rest with
          | [] => 0 <=? s * turn p v q
          | _ :: _ =>
              if is_ear s p v q rest
              then ear_clip fuel' s (p :: q :: rest)
              else ear_clip fuel' s (v :: q :: rest ++ [p])
          end
      | _ => false
      end
  end.

Definition ear_clipping (pts : list Cv2.point) : bool :=
  let fuel := S (List.length pts * List.length pts) in
  ear_clip fuel 1 pts || ear_clip fuel (-1) pts.

(** The [(fov, channel)] index of a table is strictly increasing. *)
Definition key_ltb (a b : Measure.key) : bool :=
  Measure.key_leb a b && negb (Measure.key_eqb a b).

Fixpoint increasing (ks : list Measure.key) : bool :=
  match ks with
  | [] => true
  | a :: r =>
      match r with
      | [] => true
      | b :: _ => key_ltb a b && increasing r
      end
  end.

(** The group of a score record. *)
Definition key_of (r : Measure.ScoreRecord) : Measure.key :=
  (Measure.fov r, Measure.channel r).

(** The entry [(i, j)] of a two-dimensional array (0 outside). *)
Definition entry (a : Builtins.array2) (i j : Z) : Z :=
  nth (Z.to_nat j) (nth (Z.to_nat i) a []) 0.

(** Every row of the array has [ncols] entries. *)
Definition rectangular (a : Builtins.array2) (ncols : Z) : Prop :=
  Forall (fun row => len row = ncols) a.

(** The character [c] occurs in [s]. *)
Fixpoint has_char (c : ascii) (s : string) : bool :=
  match s with
  | EmptyString => false
  | String c' s' => Ascii.eqb c c' || has_char c s'
  end.


(** * Properties *)

(** ** Lists and floats *)

Lemma pop_None (A : Type) (l : list A) : pop l = None -> l = [].
Proof.
  destruct l as [|x r]; simpl; [reflexivity|].
  destruct (pop r) as [[y r']|]; discriminate.
Qed.

Lemma pop_Some (A : Type) (l : list A) (x : A) (r : list A) :
  pop l = Some (x, r) -> l = r ++ [x].
Proof.
  revert x r. induction l as [|a l IH]; simpl; intros x r H; [discriminate|].
  destruct (pop l) as [[y r']|] eqn:E.
  - inversion H; subst. rewrite (IH _ _ eq_refl). reflexivity.
  - inversion H; subst. rewrite (pop_None l E). reflexivity.
Qed.

Lemma Qgtb_true (a b : Q) : Qgtb a b = true <-> (b < a)%Q.
Proof.
  unfold Qgtb. rewrite negb_true_iff. split; intro H.
  - apply Qnot_le_lt. intro Hle. apply Qle_bool_iff in Hle. congruence.
  - destruct (Qle_bool a b) eqn:E; [|reflexivity].
    apply Qle_bool_iff in E. exfalso. exact (Qlt_not_le _ _ H E).
Qed.


(** ** All-within-threshold assignment ([cenfind.core.measure.assign]) *)

Section AssignAll.

Variables Focus Nucleus : Type.
Variable signed_distance : Focus -> Nucleus -> Q.

Lemma assign_inner_acc (foci : list Focus) (n : Nucleus) (vicinity : Z)
  (acc : list Focus) :
  fold_left
    (fun assigned f =>
       let distance := signed_distance f n in
       if Qgtb distance (inject_Z vicinity) then assigned ++ [f] else assigned)
    foci acc
  = acc ++ filter (exceeds signed_distance vicinity n) foci.
Proof.
  revert acc. induction foci as [|f foci IH]; intro acc; simpl.
  - now rewrite app_nil_r.
  - rewrite IH. unfold exceeds at 2.
    destruct (Qgtb (signed_distance f n) (inject_Z vicinity)); simpl.
    + now rewrite <- app_assoc.
    + reflexivity.
Qed.

Lemma assign_inner_filter (foci : list Focus) (n : Nucleus) (vicinity : Z) :
  Measure.assign_inner signed_distance foci n vicinity = filter (exceeds signed_distance vicinity n) foci.
Proof.
  unfold Measure.assign_inner. now rewrite assign_inner_acc.
Qed.

(** The loop ends, having appended one pair per remaining nucleus, last
    nucleus first. *)
Lemma assign_loop_spec (foci : list Focus) (vicinity : Z)
  (nuclei : list Nucleus) (pairs : list (Nucleus * list Focus)) :
  Measure.assign_loop signed_distance foci vicinity nuclei pairs
  = pairs ++ map (fun n => (n, filter (exceeds signed_distance vicinity n) foci)) (rev nuclei).
Proof.
  funelim (Measure.assign_loop signed_distance foci vicinity nuclei pairs).
  - match goal with
    | Hp : pop _ = Some _ |- _ => rewrite (pop_Some _ Hp)
    end.
    match goal with
    | IH : Measure.assign_loop _ _ _ _ _ = _ ++ _ |- _ => rewrite IH
    end.
    rewrite rev_app_distr. simpl. rewrite <- app_assoc. simpl.
    now rewrite assign_inner_filter.
  - match goal with
    | Hp : pop _ = None |- _ => rewrite (pop_None _ Hp)
    end.
    simpl. now rewrite app_nil_r.
Qed.

Lemma assign_eq (foci : list Focus) (nuclei : list Nucleus) (vicinity : Z) :
  Measure.assign signed_distance foci nuclei vicinity
  = map (fun n => (n, filter (exceeds signed_distance vicinity n) foci)) (rev nuclei).
Proof.
  unfold Measure.assign. now rewrite assign_loop_spec.
Qed.

Lemma assign_nuclei (foci : list Focus) (nuclei : list Nucleus) (vicinity : Z) :
  map fst (Measure.assign signed_distance foci nuclei vicinity) = rev nuclei.
Proof.
  rewrite assign_eq, map_map. simpl. apply map_id.
Qed.

(** C1. For every list of foci, every list of nuclei and every vicinity,
    [assign] of [cenfind.core.measure] returns exactly one pair per input
    nucleus (the nuclei of the result are the input nuclei, last first, so a
    nucleus is repeated only if the input repeats it), and the focus list of
    each pair holds exactly the foci whose signed distance to that nucleus
    exceeds [vicinity], in input order. A focus that is close enough to two
    nuclei is listed with both, and an empty foci list yields pairs with
    empty lists. The function is total: nothing is raised. *)
Theorem assign_all_within_threshold
  (foci : list Focus) (nuclei : list Nucleus) (vicinity : Z) :
  let pairs := Measure.assign signed_distance foci nuclei vicinity in
  map fst pairs = rev nuclei /\
  Permutation (map fst pairs) nuclei /\
  List.length pairs = List.length nuclei /\
  (NoDup nuclei -> NoDup (map fst pairs)) /\
  (forall n fs, In (n, fs) pairs ->
     fs = filter (fun f => Qgtb (signed_distance f n) (inject_Z vicinity)) foci) /\
  (forall n fs f, In (n, fs) pairs ->
     (In f fs <-> In f foci /\ (inject_Z vicinity < signed_distance f n)%Q)) /\
  (forall f n1 n2, In f foci -> In n1 nuclei -> In n2 nuclei ->
     (inject_Z vicinity < signed_distance f n1)%Q ->
     (inject_Z vicinity < signed_distance f n2)%Q ->
     exists fs1 fs2, In (n1, fs1) pairs /\ In (n2, fs2) pairs /\
                     In f fs1 /\ In f fs2) /\
  Measure.assign signed_distance [] nuclei vicinity
  = map (fun n => (n, [])) (rev nuclei).
Proof.
  intro pairs.
  assert (Hfst : map fst pairs = rev nuclei) by apply assign_nuclei.
  assert (Hin : forall n fs, In (n, fs) pairs ->
                  fs = filter (exceeds signed_distance vicinity n) foci).
  { intros n fs H. unfold pairs in H. rewrite assign_eq in H.
    apply in_map_iff in H. destruct H as [m [E _]]. now inversion E. }
  assert (Hmem : forall n, In n nuclei ->
                   In (n, filter (exceeds signed_distance vicinity n) foci) pairs).
  { intros n H. unfold pairs. rewrite assign_eq.
    apply in_map_iff. exists n. split; [reflexivity|]. now apply in_rev in H. }
  split; [exact Hfst|].
  split; [rewrite Hfst; apply Permutation_sym, Permutation_rev|].
  split; [rewrite <- (length_map fst pairs), Hfst; apply length_rev|].
  split; [intro H; rewrite Hfst; apply NoDup_rev; exact H|].
  split; [exact Hin|].
  split.
  { intros n fs f H. rewrite (Hin _ _ H), filter_In. unfold exceeds.
    rewrite Qgtb_true. tauto. }
  split.
  { intros f n1 n2 Hf H1 H2 D1 D2.
    exists (filter (exceeds signed_distance vicinity n1) foci), (filter (exceeds signed_distance vicinity n2) foci).
    repeat split; try (now apply Hmem);
      apply filter_In; (split; [exact Hf | now apply Qgtb_true]). }
  rewrite assign_eq. reflexivity.
Qed.

End AssignAll.

(** Two nuclei and one focus within the threshold of both: the focus is
    listed twice, once with each nucleus. *)
Example assign_shares_a_focus :
  Measure.assign (fun (f n : Z) => inject_Z (f - n)) [10] [0; 5] 0
  = [(5, [10]); (0, [10])].
Proof. reflexivity. Qed.

Lemma assign_all_within_threshold_witness :
  let d := fun (f n : Z) => inject_Z (f - n) in
  NoDup [0; 5] /\
  NoDup (map fst (Measure.assign d [10] [0; 5] 0)) /\
  exists fs1 fs2,
    In (0, fs1) (Measure.assign d [10] [0; 5] 0) /\
    In (5, fs2) (Measure.assign d [10] [0; 5] 0) /\
    In 10 fs1 /\ In 10 fs2.
Proof.
  intro d.
  assert (Hnd : NoDup [0; 5]).
  { constructor; [intros [H|[]]; discriminate H|].
    constructor; [intros []|]. constructor. }
  destruct (assign_all_within_threshold d [10] [0; 5] 0)
    as [_ [_ [_ [Hdup [_ [_ [Hshare _]]]]]]].
  split; [exact Hnd|]. split; [exact (Hdup Hnd)|].
  apply (Hshare 10 0 5).
  - now left.
  - now left.
  - right. now left.
  - reflexivity.
  - reflexivity.
Defined.

(** ** Nearest-nucleus assignment ([centrack.commands.score.assign]) *)

Section FirstMaximum.

Variable A : Type.
Variable key : A -> Q.






(** The search over [(item, key item)] pairs with [snd] as key, as the code
    runs it, finds the pair of the first maximum. *)
Lemma max_from_pairs (l : list A) (best : A) :
  Score.max_from snd (best, key best) (map (fun n => (n, key n)) l)
  = (Score.max_from key best l, key (Score.max_from key best l)).
Proof.
  revert best. induction l as [|item r IH]; intro best; simpl; [reflexivity|].
  destruct (Qgtb (key item) (key best)); apply IH.
Qed.

End FirstMaximum.

Section NearestAssign.

Import Annotation.

Variable pointPolygonTest : list Cv2.point -> Z * Z -> bool -> Q.

Lemma max_distances (c : Centre) (n0 : Contour) (ns : list Contour) :
  Score.max (Score.distances pointPolygonTest c (n0 :: ns)) snd
  = Ok (Score.max_from (sdist pointPolygonTest c) n0 ns,
        sdist pointPolygonTest c (Score.max_from (sdist pointPolygonTest c) n0 ns)).
Proof.
  unfold Score.max, Score.distances. simpl. f_equal.
  apply (max_from_pairs (sdist pointPolygonTest c)).
Qed.

Lemma assign_fold (n0 : Contour) (ns : list Contour) (foci : list Centre)
  (acc : list (Centre * Contour)) :
  fold_left (Score.assign_step pointPolygonTest (n0 :: ns)) foci (Ok acc)
  = Ok (acc ++ flat_map (kept pointPolygonTest n0 ns) foci).
Proof.
  revert acc. induction foci as [|c foci IH]; intro acc; cbn [fold_left flat_map].
  - now rewrite app_nil_r.
  - unfold Score.assign_step at 2. cbn [bind]. rewrite max_distances. cbn [bind fst snd].
    unfold kept at 1.
    destruct (Qgtb (sdist pointPolygonTest c (Score.max_from (sdist pointPolygonTest c) n0 ns)) (inject_Z (-50)));
      rewrite IH; [now rewrite <- app_assoc | reflexivity].
Qed.

Lemma assign_forced_fold (n0 : Contour) (ns : list Contour)
  (foci : list Centre) (acc : list (Centre * Contour)) :
  fold_left (Score.assign_forced_step pointPolygonTest (n0 :: ns)) foci (Ok acc)
  = Ok (acc ++ map (fun c => (c, Score.max_from (sdist pointPolygonTest c) n0 ns)) foci).
Proof.
  revert acc. induction foci as [|c foci IH]; intro acc; cbn [fold_left map].
  - now rewrite app_nil_r.
  - unfold Score.assign_forced_step at 2. cbn [bind]. rewrite max_distances.
    cbn [bind fst]. rewrite IH. now rewrite <- app_assoc.
Qed.

Lemma assign_nonempty (c0 : Centre) (cs : list Centre) (n0 : Contour)
  (ns : list Contour) :
  Score.assign pointPolygonTest (c0 :: cs) (n0 :: ns)
  = Ok (flat_map (kept pointPolygonTest n0 ns) (c0 :: cs)).
Proof.
  unfold Score.assign.
  change (len (c0 :: cs) =? 0) with false.
  change (len (n0 :: ns) =? 0) with false.
  cbv iota. apply (assign_fold n0 ns (c0 :: cs) []).
Qed.

(** The forced variant of [centrack/score.py] makes the same search and
    keeps every focus, whatever the distance. *)
Lemma assign_forced_nonempty (c0 : Centre) (cs : list Centre) (n0 : Contour)
  (ns : list Contour) :
  Score.assign_forced pointPolygonTest (c0 :: cs) (n0 :: ns)
  = Ok (map (fun c => (c, Score.max_from (sdist pointPolygonTest c) n0 ns)) (c0 :: cs)).
Proof.
  unfold Score.assign_forced.
  change (len (c0 :: cs) =? 0) with false.
  change (len (n0 :: ns) =? 0) with false.
  cbv iota. apply (assign_forced_fold n0 ns (c0 :: cs) []).
Qed.



(** C5. [assign] of [centrack/commands/score.py] runs to a normal result if
    and only if both input lists are non-empty. An empty foci list raises
    [ValueError('Empty foci list')] (also when the nuclei list is empty as
    well), and a non-empty foci list with an empty nuclei list raises
    [ValueError('Empty nuclei list')]: this ValueError is the code's
    empty-input error. The variant of [centrack/score.py] has the same two
    guards. *)
Theorem assign_nearest_empty_input
  (foci_list : list Centre) (nuclei_list : list Contour) :
  (returns (Score.assign pointPolygonTest foci_list nuclei_list) <->
     foci_list <> [] /\ nuclei_list <> []) /\
  Score.assign pointPolygonTest [] nuclei_list
    = Raise (ValueError "Empty foci list") /\
  (forall c cs, Score.assign pointPolygonTest (c :: cs) []
    = Raise (ValueError "Empty nuclei list")) /\
  (returns (Score.assign_forced pointPolygonTest foci_list nuclei_list) <->
     foci_list <> [] /\ nuclei_list <> []) /\
  Score.assign_forced pointPolygonTest [] nuclei_list
    = Raise (ValueError "Empty foci list") /\
  (forall c cs, Score.assign_forced pointPolygonTest (c :: cs) []
    = Raise (ValueError "Empty nuclei list")).
Proof.
  assert (Hgen : forall (f : list Centre -> list Contour ->
                             result (list (Centre * Contour))),
            f [] nuclei_list = Raise (ValueError "Empty foci list") ->
            (forall c cs, f (c :: cs) [] = Raise (ValueError "Empty nuclei list")) ->
            (forall c cs n ns, returns (f (c :: cs) (n :: ns))) ->
            (returns (f foci_list nuclei_list) <->
               foci_list <> [] /\ nuclei_list <> [])).
  { intros f H1 H2 H3. destruct foci_list as [|c cs].
    - split.
      + intros [a H]. rewrite H1 in H. discriminate H.
      + intros [H _]. now contradiction H.
    - destruct nuclei_list as [|n ns].
      + split.
        * intros [a H]. rewrite H2 in H. discriminate H.
        * intros [_ H]. now contradiction H.
      + split.
        * intros _. split; discriminate.
        * intros _. apply H3. }
  split; [|split; [reflexivity | split; [reflexivity | split;
    [|split; [reflexivity | reflexivity]]]]].
  - apply (Hgen (Score.assign pointPolygonTest)); try reflexivity.
    intros c cs n ns. eexists. apply assign_nonempty.
  - apply (Hgen (Score.assign_forced pointPolygonTest)); try reflexivity.
    intros c cs n ns. eexists. apply assign_forced_nonempty.
Qed.


End NearestAssign.


(** ** Accuracy metric on an empty input ([cenfind.core.measure.field_metrics]) *)

Section FieldMetricsFacts.

Variable points_matching :
  list (Z * Z) -> list (Z * Z) -> Z -> result Measure.Stats.

Lemma all_two (a b : Z) :
  Measure.all [a; b] = negb (a =? 0) && negb (b =? 0).
Proof.
  unfold Measure.all. simpl. now rewrite andb_true_r.
Qed.

Lemma len_zero (A : Type) (l : list A) : (len l =? 0) = true <-> l = [].
Proof.
  unfold len. destruct l; simpl; split; intro H; try reflexivity; discriminate.
Qed.

(** The matcher is called exactly when both arrays have a row. *)
Lemma field_metrics_guard (annotation predictions : list (Z * Z)) :
  (Z.b2z (Measure.all [len predictions; len annotation]) >? 0) = false <->
  annotation = [] \/ predictions = [].
Proof.
  rewrite all_two.
  destruct annotation, predictions; simpl; split; intro H;
    try reflexivity; try discriminate; try tauto.
  destruct H; discriminate.
Qed.

(** C3. When the annotated or the predicted point set is empty,
    [field_metrics] raises nothing (the external matcher is not called) and
    returns a record whose precision, recall and f1 are 0, while [n_actual]
    and [n_preds] hold the sizes of the two inputs. *)
Theorem field_metrics_empty_input
  (field : Measure.Field) (channel : Z) (annotation predictions : list (Z * Z))
  (tolerance : Z) :
  annotation = [] \/ predictions = [] ->
  exists perf,
    Measure.field_metrics points_matching field channel annotation predictions
      tolerance = Ok perf /\
    Measure.get perf "precision" = Some (Measure.Float 0) /\
    Measure.get perf "recall" = Some (Measure.Float 0) /\
    Measure.get perf "f1" = Some (Measure.Float 0) /\
    Measure.get perf "n_actual" = Some (Measure.Int (len annotation)) /\
    Measure.get perf "n_preds" = Some (Measure.Int (len predictions)).
Proof.
  intro H. apply field_metrics_guard in H.
  unfold Measure.field_metrics. rewrite H. cbn [bind].
  eexists. split; [reflexivity|]. repeat split.
Qed.

End FieldMetricsFacts.

Lemma field_metrics_empty_input_witness :
  exists perf,
    Measure.field_metrics failing_matcher (Measure.mkField "ds" "field_0") 1
      [(10, 10); (50, 50)] [] 3 = Ok perf /\
    Measure.get perf "precision" = Some (Measure.Float 0) /\
    Measure.get perf "recall" = Some (Measure.Float 0) /\
    Measure.get perf "f1" = Some (Measure.Float 0) /\
    Measure.get perf "n_actual" = Some (Measure.Int 2) /\
    Measure.get perf "n_preds" = Some (Measure.Int 0).
Proof.
  apply (@field_metrics_empty_input failing_matcher
           (Measure.mkField "ds" "field_0") 1 [(10, 10); (50, 50)] [] 3).
  right. reflexivity.
Defined.

(** ** Frequency binning ([cenfind.core.measure.field_score_frequency]) *)

Section Binning.

Import Measure.

(** The bucket of an integer, by its interval. *)
Lemma cut_cases (x : Z) :
  cut x cuts labels =
    if x <? 0 then None
    else if x <? 1 then Some "0"%string
    else if x <? 2 then Some "1"%string
    else if x <? 3 then Some "2"%string
    else if x <? 4 then Some "3"%string
    else if x <? 5 then Some "4"%string
    else Some "+"%string.
Proof.
  unfold cut, searchsorted_right, cuts, labels. cbn [filter edge_leb].
  destruct (Z.ltb_spec x 0); destruct (Z.ltb_spec x 1); destruct (Z.ltb_spec x 2);
  destruct (Z.ltb_spec x 3); destruct (Z.ltb_spec x 4); destruct (Z.ltb_spec x 5);
  try (exfalso; lia);
  destruct (Z.leb_spec 0 x); destruct (Z.leb_spec 1 x); destruct (Z.leb_spec 2 x);
  destruct (Z.leb_spec 3 x); destruct (Z.leb_spec 4 x); destruct (Z.leb_spec 5 x);
  try (exfalso; lia); reflexivity.
Qed.

(** A count always falls in a bucket. *)
Lemma cut_count (s : nat) :
  exists l, cut (Z.of_nat s) cuts labels = Some l /\ In l labels.
Proof.
  rewrite cut_cases.
  destruct (Z.ltb_spec (Z.of_nat s) 0); [lia|].
  repeat match goal with
         | |- context [if ?b then _ else _] => destruct b
         end;
    eexists; (split; [reflexivity | simpl; tauto]).
Qed.

Lemma key_eqb_eq (a b : key) : key_eqb a b = true <-> a = b.
Proof.
  unfold key_eqb. destruct a as [f c], b as [f' c']. simpl.
  rewrite andb_true_iff, String.eqb_eq, Z.eqb_eq. split.
  - intros [-> ->]. reflexivity.
  - intro H. inversion H. now split.
Qed.

Lemma in_insert_key (k k' : key) (ks : list key) :
  In k' (insert_key k ks) <-> k' = k \/ In k' ks.
Proof.
  induction ks as [|a ks IH]; simpl.
  - intuition.
  - destruct (key_eqb k a) eqn:E.
    + apply key_eqb_eq in E. subst a. simpl. intuition.
    + destruct (key_leb k a); simpl; rewrite ?IH; intuition.
Qed.

Lemma in_group_keys (k : key) (ks : list key) :
  In k (group_keys ks) <-> In k ks.
Proof.
  induction ks as [|a ks IH]; simpl; [reflexivity|].
  rewrite in_insert_key, IH. intuition.
Qed.

Lemma count_cat_rows (df : list ScoreRecord) (k : key) (l : string) (p : nat -> bool) :
  (forall s, match cut (Z.of_nat s) cuts labels with
             | Some l' => String.eqb l' l
             | None => false
             end = p s) ->
  count_cat (categorised df) k l = rows_where df k p.
Proof.
  intro Hp. unfold count_cat, rows_where, categorised.
  induction df as [|r df IH]; [reflexivity|].
  cbn [map filter fst snd]. rewrite Hp.
  destruct (key_eqb (fov r, channel r) k && p (score r)); simpl;
    now rewrite IH.
Qed.

Lemma cut_label_eqb (s : nat) (l : string) (p : nat -> bool) :
  (l, p) = ("0"%string, Nat.eqb 0) \/ (l, p) = ("1"%string, Nat.eqb 1) \/
  (l, p) = ("2"%string, Nat.eqb 2) \/ (l, p) = ("3"%string, Nat.eqb 3) \/
  (l, p) = ("4"%string, Nat.eqb 4) \/ (l, p) = ("+"%string, Nat.leb 5) ->
  match cut (Z.of_nat s) cuts labels with
  | Some l' => String.eqb l' l
  | None => false
  end = p s.
Proof.
  intro H. rewrite cut_cases.
  destruct s as [|[|[|[|[|[|s]]]]]];
    try (decompose [or] H;
         match goal with E : (_, _) = (_, _) |- _ => inversion E; subst end;
         reflexivity).
  destruct (Z.ltb_spec (Z.of_nat (S (S (S (S (S (S s))))))) 0); [lia|].
  destruct (Z.ltb_spec (Z.of_nat (S (S (S (S (S (S s))))))) 1); [lia|].
  destruct (Z.ltb_spec (Z.of_nat (S (S (S (S (S (S s))))))) 2); [lia|].
  destruct (Z.ltb_spec (Z.of_nat (S (S (S (S (S (S s))))))) 3); [lia|].
  destruct (Z.ltb_spec (Z.of_nat (S (S (S (S (S (S s))))))) 4); [lia|].
  destruct (Z.ltb_spec (Z.of_nat (S (S (S (S (S (S s))))))) 5); [lia|].
  decompose [or] H;
    match goal with E : (_, _) = (_, _) |- _ => inversion E; subst end;
    reflexivity.
Qed.

Lemma frequency_row (df : list ScoreRecord) (k : key) :
  map (fun l => (l, count_cat (categorised df) k l)) labels = bucket_counts df k.
Proof.
  unfold labels, bucket_counts. cbn [map].
  repeat match goal with
         | |- context [count_cat (categorised df) k ?l] =>
             match goal with
             | |- context [(l, rows_where df k ?p)] =>
                 rewrite (@count_cat_rows df k l p)
                   by (intro s; apply cut_label_eqb; tauto)
             end
         end.
  reflexivity.
Qed.

Lemma field_score_frequency_eq (df : list ScoreRecord) :
  field_score_frequency df
  = map (fun k => (k, bucket_counts df k))
        (group_keys (map (fun r => (fov r, channel r)) df)).
Proof.
  assert (E : map fst (categorised df) = map (fun r => (fov r, channel r)) df)
    by (unfold categorised; now rewrite map_map).
  rewrite <- E. unfold field_score_frequency. cbv zeta. fold (categorised df).
  apply map_ext. intro k. now rewrite frequency_row.
Qed.

(** Every row of a group is counted in exactly one of the six buckets. *)
Lemma length_filter_cons (A : Type) (p : A -> bool) (a : A) (l : list A) :
  List.length (filter p (a :: l))
  = ((if p a then 1 else 0) + List.length (filter p l))%nat.
Proof.
  simpl. now destruct (p a).
Qed.

Lemma bucket_counts_total (df : list ScoreRecord) (k : key) :
  list_sum (map snd (bucket_counts df k)) = rows_where df k (fun _ => true).
Proof.
  unfold bucket_counts, rows_where, list_sum. cbn [map snd fold_right].
  induction df as [|r df IH]; [reflexivity|].
  rewrite !length_filter_cons. cbv beta.
  repeat match goal with
         | |- context [List.length (filter ?p df)] =>
             let x := fresh "x" in
             set (x := List.length (filter p df)) in *; clearbody x
         end.
  destruct (key_eqb (fov r, channel r) k); cbn [andb]; [|lia].
  destruct (score r) as [|[|[|[|[|[|s]]]]]]; cbn [Nat.eqb Nat.leb]; lia.
Qed.

Lemma key_eqb_refl (k : key) : key_eqb k k = true.
Proof. now apply key_eqb_eq. Qed.

(** C4. Frequency binning puts every score (a count) in exactly one of the
    buckets 0, 1, 2, 3, 4 and +: bucket [k < 5] holds exactly the scores
    equal to [k], bucket + every score [>= 5], without upper bound (only a
    negative integer, which no count is, falls in no bucket). The
    table has one row per [(fov, channel)] present in the records, its six
    columns count the records of that group by bucket, and they add up to
    the number of records of the group. The records with scores 0, 1, 1, 6
    of one [(fov, channel)] bin to 0:1, 1:2, 2:0, 3:0, 4:0, +:1. *)
Theorem frequency_binning :
  (forall s : nat,
     exists l, cut (Z.of_nat s) cuts labels = Some l /\ In l labels) /\
  (forall x : Z,
     (cut x cuts labels = Some "0"%string <-> x = 0) /\
     (cut x cuts labels = Some "1"%string <-> x = 1) /\
     (cut x cuts labels = Some "2"%string <-> x = 2) /\
     (cut x cuts labels = Some "3"%string <-> x = 3) /\
     (cut x cuts labels = Some "4"%string <-> x = 4) /\
     (cut x cuts labels = Some "+"%string <-> 5 <= x) /\
     (cut x cuts labels = None <-> x < 0)) /\
  (forall (df : list ScoreRecord) (k : key) (row : list (string * nat)),
     In (k, row) (field_score_frequency df) <->
     (exists r, In r df /\ (fov r, channel r) = k) /\
     row = bucket_counts df k) /\
  (forall (df : list ScoreRecord) (k : key),
     list_sum (map snd (bucket_counts df k)) = rows_where df k (fun _ => true)) /\
  (forall (f : string) (c : Z) (n1 n2 n3 n4 : Z * Z) (b1 b2 b3 b4 : bool),
     field_score_frequency
       [mkScore f c n1 0 b1; mkScore f c n2 1 b2; mkScore f c n3 1 b3;
        mkScore f c n4 6 b4]
     = [((f, c), [("0"%string, 1%nat); ("1"%string, 2%nat); ("2"%string, 0%nat);
                  ("3"%string, 0%nat); ("4"%string, 0%nat); ("+"%string, 1%nat)])]).
Proof.
  split; [exact cut_count|]. split.
  { intro x. rewrite cut_cases.
    destruct (Z.ltb_spec x 0); destruct (Z.ltb_spec x 1); destruct (Z.ltb_spec x 2);
    destruct (Z.ltb_spec x 3); destruct (Z.ltb_spec x 4); destruct (Z.ltb_spec x 5);
    try (exfalso; lia);
    repeat split; intro; try discriminate; try lia; try reflexivity;
    exfalso; lia. }
  split.
  { intros df k row. rewrite field_score_frequency_eq, in_map_iff. split.
    - intros [k' [E Hk]]. inversion E; subst. split; [|reflexivity].
      apply in_group_keys, in_map_iff in Hk. destruct Hk as [r [Hr Hin]].
      now exists r.
    - intros [[r [Hin Hr]] ->]. exists k. split; [reflexivity|].
      apply in_group_keys, in_map_iff. now exists r. }
  split; [exact bucket_counts_total|].
  intros f c n1 n2 n3 n4 b1 b2 b3 b4.
  rewrite field_score_frequency_eq. cbn [map fov channel].
  unfold group_keys. cbn [fold_right].
  repeat (progress (cbn [insert_key]; rewrite ?key_eqb_refl)).
  cbn [map]. unfold bucket_counts, rows_where. cbn [filter fov channel score].
  rewrite !key_eqb_refl. reflexivity.
Qed.

End Binning.

(** ** Saving the detected foci ([cenfind.cli.score.save_foci]) *)

Section SaveFoci.

Import Outline Cli.

Lemma to_numpy_eq (c : Centre) :
  to_numpy c = [fst (position c); snd (position c)].
Proof.
  unfold to_numpy, centre. now destruct (position c).
Qed.

Lemma stack_foci (c0 : Centre) (cs : list Centre) :
  np_stack (map to_numpy (c0 :: cs)) = Ok (Array2 (map to_numpy (c0 :: cs))).
Proof.
  unfold np_stack. cbn [map].
  replace (forallb _ (map to_numpy cs)) with true; [reflexivity|].
  symmetry. apply forallb_forall. intros b Hb.
  apply in_map_iff in Hb. destruct Hb as [c [<- _]].
  now rewrite !to_numpy_eq.
Qed.

Lemma swap_columns (foci_list : list Centre) :
  map_rows (fun row => take_cols row [1%nat; 0%nat]) (map to_numpy foci_list)
  = Ok (map (fun c => [snd (position c); fst (position c)]) foci_list).
Proof.
  induction foci_list as [|c cs IH]; [reflexivity|].
  cbn [map map_rows]. rewrite IH, to_numpy_eq. reflexivity.
Qed.

(** C9. For a non-empty list of foci at [(row, col)] positions, [save_foci]
    raises nothing and writes to [dst] a text of exactly one line per focus,
    in input order, each line being the column then the row of the focus as
    decimal integers separated by a comma; the log is untouched. *)
Theorem save_foci_writes_col_row
  (c0 : Centre) (cs : list Centre) (dst : string) (w : World) :
  let lines := map foci_line (c0 :: cs) in
  save_foci (c0 :: cs) dst w
  = (Ok tt,
     mkWorld
       ((dst, String.concat "" (map (fun l => (l ++ newline)%string) lines))
          :: files w)
       (log w)) /\
  List.length lines = List.length (c0 :: cs) /\
  (forall (i : nat) (c : Centre), nth_error (c0 :: cs) i = Some c ->
     nth_error lines i
     = Some (fmt_u (snd (position c)) ++ "," ++ fmt_u (fst (position c)))%string).
Proof.
  intro lines. split; [|split].
  - unfold save_foci, mbind, lift.
    change (len (c0 :: cs) =? 0) with false. cbv iota.
    rewrite stack_foci. unfold index_columns. rewrite swap_columns.
    cbn [bind]. unfold np_savetxt, write_file, savetxt_lines.
    rewrite map_map. unfold lines.
    rewrite !map_map. reflexivity.
  - unfold lines. apply length_map.
  - intros i c H. unfold lines. rewrite nth_error_map, H. reflexivity.
Qed.

Lemma save_foci_writes_col_row_witness :
  let c0 := Outline.Centre_ (3, 4) in
  let c1 := Outline.Centre_ (15, 2) in
  save_foci [c0; c1] "foci.txt" (mkWorld [] [])
  = (Ok tt,
     mkWorld [("foci.txt"%string,
               ("4,3" ++ newline ++ "2,15" ++ newline)%string)] []) /\
  nth_error (map foci_line [c0; c1]) 1 = Some "2,15"%string.
Proof.
  intros c0 c1.
  destruct (save_foci_writes_col_row c0 [c1] "foci.txt" (mkWorld [] []))
    as [H [_ Hnth]].
  split; [exact H|]. exact (Hnth 1%nat c1 eq_refl).
Defined.

(** C10. Called with an empty foci list, [save_foci] logs "No centriole
    detected", builds a one-dimensional empty array and raises IndexError
    when it indexes that array with two indices; [np.savetxt] is not
    reached, so no file is written. *)
Theorem save_foci_empty_raises (dst : string) (w : World) :
  save_foci [] dst w
  = (Raise (IndexError
       "too many indices for array: array is 1-dimensional, but 2 were indexed"),
     mkWorld (files w) (log w ++ ["No centriole detected"%string])) /\
  files (snd (save_foci [] dst w)) = files w /\
  read_file (files (snd (save_foci [] dst w))) dst = read_file (files w) dst.
Proof.
  repeat split.
Qed.

End SaveFoci.

(** ** Bounding boxes ([centrack.annotation.BBox]) *)

Section BBoxFacts.

Import Annotation.

Lemma BBox_height_eq (b : BBox) :
  BBoxM.height b = fst (bottom_right b) - fst (top_left b).
Proof.
  unfold BBoxM.height. now destruct (top_left b), (bottom_right b).
Qed.

Lemma BBox_width_eq (b : BBox) :
  BBoxM.width b = snd (bottom_right b) - snd (top_left b).
Proof.
  unfold BBoxM.width. now destruct (top_left b), (bottom_right b).
Qed.

(** The class checks nothing at construction: corners in the wrong order
    give negative dimensions. *)
Lemma BBox_negative_dims :
  let b := mkBBox (10, 10) (0, 0) 0 "" 0 in
  BBoxM.height b = -10 /\ BBoxM.width b = -10 /\
  ~ (0 <= BBoxM.height b /\ 0 <= BBoxM.width b).
Proof.
  cbv zeta. split; [reflexivity|]. split; [reflexivity|].
  intros [H _]. now apply H.
Qed.

(** Without any assumption: the dimensions are non-negative if and only if
    the corners are ordered. *)
Lemma BBox_dims_nonneg_iff (b : BBox) :
  (0 <= BBoxM.height b /\ 0 <= BBoxM.width b) <->
  (fst (top_left b) <= fst (bottom_right b) /\
   snd (top_left b) <= snd (bottom_right b)).
Proof.
  rewrite BBox_height_eq, BBox_width_eq. lia.
Qed.

(** The box of a point is the 64 x 64 square around it. *)
Lemma Centre_bbox_dims (c : Centre) :
  BBoxM.height (CentreM.bbox c) = 64 /\ BBoxM.width (CentreM.bbox c) = 64 /\
  position (BBoxM.centre (CentreM.bbox c)) = position c.
Proof.
  rewrite BBox_height_eq, BBox_width_eq.
  unfold BBoxM.centre, CentreM.bbox, CentreM.row, CentreM.col.
  cbn [top_left bottom_right fst snd position].
  destruct (position c) as [r k]. cbn [fst snd].
  repeat split; try lia.
  f_equal.
  - replace (r + 32 + (r - 32)) with (r * 2) by lia. now apply Z.div_mul.
  - replace (k + 32 + (k - 32)) with (k * 2) by lia. now apply Z.div_mul.
Qed.

End BBoxFacts.

(** ** The centre of a contour ([Contour.centre]) *)

Section ContourCentre.

Lemma truediv_pos (a b : Q) : (0 < b)%Q -> truediv a b = Ok (a / b)%Q.
Proof.
  intro H. unfold truediv.
  destruct (Qeq_bool b 0) eqn:E; [|reflexivity].
  apply Qeq_bool_eq in E. rewrite E in H. now apply Qlt_irrefl in H.
Qed.

Lemma eps_denominator_pos (m : Q) :
  (0 <= m)%Q -> (0 < m + (1 # 100000))%Q.
Proof.
  intro H. apply Qlt_le_trans with (0 + (1 # 100000))%Q; [reflexivity|].
  apply Qplus_le_l. exact H.
Qed.

(** The area moment of the OpenCV model is never negative. *)
Lemma moments_m00_nonneg (pts : list Cv2.point) :
  (0 <= Cv2.m00 (Cv2.moments pts))%Q.
Proof.
  unfold Cv2.moments. destruct (Cv2.moments_sums pts) as [[a00 a10] a01].
  destruct (Z.eqb_spec a00 0); [discriminate|].
  destruct (Z.ltb_spec 0 a00); unfold Qle; simpl; lia.
Qed.

Lemma Annotation_centre_eq (cv2_moments : list Cv2.point -> Cv2.Moments)
  (self : Annotation.Contour) :
  let m := cv2_moments (Annotation.contour self) in
  (0 <= Cv2.m00 m)%Q ->
  Annotation.ContourM.centre cv2_moments self
  = Ok (Annotation.mkCentre
          (int (Cv2.m01 m / (Cv2.m00 m + (1 # 100000))),
           int (Cv2.m10 m / (Cv2.m00 m + (1 # 100000))))
          (Annotation.contour_idx self) (Annotation.contour_label self)
          (Annotation.contour_confidence self)).
Proof.
  intros m H. pose proof (eps_denominator_pos H) as Hpos.
  unfold Annotation.ContourM.centre, Annotation.ContourM.eps. fold m.
  rewrite !truediv_pos by exact Hpos. reflexivity.
Qed.

Lemma Outline_centre_eq (cv2_moments : list Cv2.point -> Cv2.Moments)
  (self : Outline.Contour) :
  let m := cv2_moments (Outline.contour self) in
  (0 <= Cv2.m00 m)%Q ->
  Outline.Contour_centre cv2_moments self
  = Ok (Outline.mkCentre
          (int (Cv2.m01 m / (Cv2.m00 m + (1 # 100000))),
           int (Cv2.m10 m / (Cv2.m00 m + (1 # 100000))))
          (Outline.contour_idx self) (Outline.contour_label self)
          (Outline.contour_confidence self)).
Proof.
  intros m H. pose proof (eps_denominator_pos H) as Hpos.
  unfold Outline.Contour_centre, Outline.eps. fold m.
  rewrite !truediv_pos by exact Hpos. reflexivity.
Qed.

(** C8. Whatever moments OpenCV reports for a contour, as long as the area
    moment [m00] is not negative (zero included: a degenerate contour), the
    two divisions of [Contour.centre] have the strictly positive denominator
    [m00 + 1e-5], so no ZeroDivisionError is raised and the centre is
    returned, in [centrack/annotation.py] and in [cenfind/core/outline.py]
    alike. *)
Theorem Contour_centre_no_zero_division
  (cv2_moments : list Cv2.point -> Cv2.Moments)
  (pts : list Cv2.point) (label : string) (idx : Z) (confidence : Q) :
  (0 <= Cv2.m00 (cv2_moments pts))%Q ->
  let m := cv2_moments pts in
  (0 < Cv2.m00 m + (1 # 100000))%Q /\
  Annotation.ContourM.centre cv2_moments
    (Annotation.mkContour pts label idx confidence)
  = Ok (Annotation.mkCentre
          (int (Cv2.m01 m / (Cv2.m00 m + (1 # 100000))),
           int (Cv2.m10 m / (Cv2.m00 m + (1 # 100000))))
          idx label confidence) /\
  Outline.Contour_centre cv2_moments
    (Outline.mkContour pts label idx confidence)
  = Ok (Outline.mkCentre
          (int (Cv2.m01 m / (Cv2.m00 m + (1 # 100000))),
           int (Cv2.m10 m / (Cv2.m00 m + (1 # 100000))))
          idx label confidence).
Proof.
  intros H m. split; [exact (eps_denominator_pos H)|]. split.
  - exact (@Annotation_centre_eq cv2_moments
             (Annotation.mkContour pts label idx confidence) H).
  - exact (@Outline_centre_eq cv2_moments
             (Outline.mkContour pts label idx confidence) H).
Qed.

(** A contour of a single point has no area; its centre is computed all the
    same, and is the origin. *)
Lemma Contour_centre_no_zero_division_witness :
  Cv2.m00 (Cv2.moments [(50, 50)]) = 0%Q /\
  Annotation.ContourM.centre Cv2.moments
    (Annotation.mkContour [(50, 50)] "Nucleus" 0 (-1))
  = Ok (Annotation.mkCentre (0, 0) 0 "Nucleus" (-1)).
Proof.
  split; [reflexivity|].
  exact (proj1 (proj2 (@Contour_centre_no_zero_division Cv2.moments [(50, 50)]
                         "Nucleus" 0 (-1) ltac:(discriminate)))).
Defined.

(** With the OpenCV model, no contour at all makes [Contour.centre] raise. *)
Lemma Contour_centre_returns (self : Annotation.Contour) :
  returns (Annotation.ContourM.centre Cv2.moments self).
Proof.
  eexists. apply Annotation_centre_eq. apply moments_m00_nonneg.
Qed.

End ContourCentre.

(** ** The centre of a contour and its bounding rectangle *)

Section ContourGeometry.

Import Cv2.

Lemma last_cons (A : Type) (l : list A) (a d : A) :
  last (a :: l) d = last l a.
Proof.
  revert a d. induction l as [|b l IH]; intros a d; [reflexivity|].
  change (last (a :: b :: l) d) with (last (b :: l) d).
  now rewrite !IH.
Qed.

Lemma moments_fold (l : list point) (prev : point) (a b c : Z) :
  fold_left moments_step l (prev, (a, b, c))
  = (last l prev,
     (a + sumZ (map e00 (edges prev l)),
      b + sumZ (map e10 (edges prev l)),
      c + sumZ (map e01 (edges prev l)))).
Proof.
  revert prev a b c. induction l as [|p l IH]; intros prev a b c.
  - simpl. now rewrite !Z.add_0_r.
  - cbn [fold_left]. unfold moments_step at 2. destruct prev as [xi_1 yi_1].
    destruct p as [xi yi]. rewrite IH.
    cbn [edges map sumZ fold_right]. unfold e10, e01, e00. cbn [fst snd].
    f_equal.
    + now rewrite last_cons.
    + f_equal; [f_equal|]; unfold sumZ; ring.
Qed.

(** One triangle [(p0, q, r)]: its weighted coordinate sum, between the
    extreme coordinates of the three corners; not all three coordinates are
    equal when the triangle has an area. *)
Lemma triangle_x_bounds (p0 : point) (e : point * point) (lo hi s : Z) :
  s = 1 \/ s = -1 ->
  lo <= fst p0 <= hi -> lo <= fst (fst e) <= hi -> lo <= fst (snd e) <= hi ->
  0 <= s * t00 p0 e ->
  (3 * lo + 1) * (s * t00 p0 e) <= s * t10 p0 e <= (3 * hi - 1) * (s * t00 p0 e).
Proof.
  intros Hs H0 Hq Hr HD. unfold t10.
  destruct p0 as [x0 y0], e as [[xq yq] [xr yr]]. unfold t00 in *.
  cbn [fst snd] in *.
  set (D := (xq - x0) * (yr - y0) - (xr - x0) * (yq - y0)) in *.
  destruct (Z.eq_dec D 0) as [E|E]; [rewrite E; lia|].
  assert (Hlo : 3 * lo + 1 <= x0 + xq + xr).
  { destruct (Z.eq_dec (x0 + xq + xr) (3 * lo)) as [E3|E3]; [|lia].
    exfalso. apply E. unfold D.
    replace xq with x0 by lia. replace xr with x0 by lia. ring. }
  assert (Hhi : x0 + xq + xr <= 3 * hi - 1).
  { destruct (Z.eq_dec (x0 + xq + xr) (3 * hi)) as [E3|E3]; [|lia].
    exfalso. apply E. unfold D.
    replace xq with x0 by lia. replace xr with x0 by lia. ring. }
  replace (s * (D * (x0 + xq + xr))) with ((x0 + xq + xr) * (s * D)) by ring.
  split; apply Z.mul_le_mono_nonneg_r; assumption.
Qed.

Lemma triangle_y_bounds (p0 : point) (e : point * point) (lo hi s : Z) :
  s = 1 \/ s = -1 ->
  lo <= snd p0 <= hi -> lo <= snd (fst e) <= hi -> lo <= snd (snd e) <= hi ->
  0 <= s * t00 p0 e ->
  (3 * lo + 1) * (s * t00 p0 e) <= s * t01 p0 e <= (3 * hi - 1) * (s * t00 p0 e).
Proof.
  intros Hs H0 Hq Hr HD. unfold t01.
  destruct p0 as [x0 y0], e as [[xq yq] [xr yr]]. unfold t00 in *.
  cbn [fst snd] in *.
  set (D := (xq - x0) * (yr - y0) - (xr - x0) * (yq - y0)) in *.
  destruct (Z.eq_dec D 0) as [E|E]; [rewrite E; lia|].
  assert (Hlo : 3 * lo + 1 <= y0 + yq + yr).
  { destruct (Z.eq_dec (y0 + yq + yr) (3 * lo)) as [E3|E3]; [|lia].
    exfalso. apply E. unfold D.
    replace yq with y0 by lia. replace yr with y0 by lia. ring. }
  assert (Hhi : y0 + yq + yr <= 3 * hi - 1).
  { destruct (Z.eq_dec (y0 + yq + yr) (3 * hi)) as [E3|E3]; [|lia].
    exfalso. apply E. unfold D.
    replace yq with y0 by lia. replace yr with y0 by lia. ring. }
  replace (s * (D * (y0 + yq + yr))) with ((y0 + yq + yr) * (s * D)) by ring.
  split; apply Z.mul_le_mono_nonneg_r; assumption.
Qed.

(** [int] of a non-negative float between two integers. *)
Lemma int_bounds (x : Q) (lo hi : Z) :
  0 <= lo -> (inject_Z lo <= x)%Q -> (x <= inject_Z hi)%Q ->
  lo <= int x <= hi.
Proof.
  destruct x as [n d]. unfold Qle, int. cbn [Qnum Qden inject_Z].
  intros Hlo H1 H2. rewrite Z.mul_1_r in H1, H2.
  assert (Hn : 0 <= n) by nia.
  rewrite Z.quot_div_nonneg by lia. split.
  - apply Z.div_le_lower_bound; lia.
  - apply Z.div_le_upper_bound; lia.
Qed.

(** The truncated quotient of the first-order moment [B / 6] by the
    stabilised area [A / 2 + 1e-5]: the epsilon does not take it below [lo]
    as long as [3 * lo <= 100000 * (A / 2)]. *)
Lemma centroid_bounds (A B lo hi : Z) :
  1 <= A -> 0 <= lo -> 3 * lo <= 50000 * A ->
  (3 * lo + 1) * A <= B <= (3 * hi - 1) * A ->
  lo <= int ((B # 6) / ((A # 2) + (1 # 100000))) <= hi.
Proof.
  intros HA Hlo Hnear HB.
  assert (Hpos : (0 < (A # 2) + (1 # 100000))%Q).
  { apply eps_denominator_pos. unfold Qle. simpl. lia. }
  apply int_bounds; [lia| |].
  - apply Qle_shift_div_l; [exact Hpos|].
    unfold Qle, Qmult, Qplus. cbn [Qnum Qden inject_Z]. nia.
  - apply Qle_shift_div_r; [exact Hpos|].
    unfold Qle, Qmult, Qplus. cbn [Qnum Qden inject_Z]. nia.
Qed.

Lemma min_list_spec (l : list Z) (d : Z) :
  min_list d l <= d /\ (forall v, In v l -> min_list d l <= v) /\
  (min_list d l = d \/ In (min_list d l) l).
Proof.
  unfold min_list. revert d. induction l as [|a l IH]; intro d; simpl.
  - split; [lia|]. split; [tauto|]. now left.
  - destruct (IH (Z.min d a)) as [H1 [H2 H3]]. split; [lia|]. split.
    + intros v [<-|Hv]; [lia|]. now apply H2.
    + destruct H3 as [H3|H3]; [|tauto].
      rewrite H3. destruct (Z.min_spec d a) as [[_ E]|[_ E]]; rewrite E; tauto.
Qed.

Lemma max_list_spec (l : list Z) (d : Z) :
  d <= max_list d l /\ (forall v, In v l -> v <= max_list d l) /\
  (max_list d l = d \/ In (max_list d l) l).
Proof.
  unfold max_list. revert d. induction l as [|a l IH]; intro d; simpl.
  - split; [lia|]. split; [tauto|]. now left.
  - destruct (IH (Z.max d a)) as [H1 [H2 H3]]. split; [lia|]. split.
    + intros v [<-|Hv]; [lia|]. now apply H2.
    + destruct H3 as [H3|H3]; [|tauto].
      rewrite H3. destruct (Z.max_spec d a) as [[_ E]|[_ E]]; rewrite E; tauto.
Qed.

(** The rectangle reported for a non-empty point set holds every point, and
    its sides touch the set. *)
Lemma boundingRect_spec (p0 : point) (rest : list point) :
  let '(x, y, w, h) := boundingRect (p0 :: rest) in
  (forall p, In p (p0 :: rest) ->
     x <= fst p <= x + w - 1 /\ y <= snd p <= y + h - 1) /\
  (exists p, In p (p0 :: rest) /\ fst p = x) /\
  (exists p, In p (p0 :: rest) /\ snd p = y).
Proof.
  unfold boundingRect. destruct p0 as [x0 y0].
  destruct (min_list_spec (map fst rest) x0) as [Hx1 [Hx2 Hx3]].
  destruct (max_list_spec (map fst rest) x0) as [Hx4 [Hx5 _]].
  destruct (min_list_spec (map snd rest) y0) as [Hy1 [Hy2 Hy3]].
  destruct (max_list_spec (map snd rest) y0) as [Hy4 [Hy5 _]].
  split; [|split].
  - intros p [<-|Hp]; cbn [fst snd]; [lia|].
    pose proof (Hx2 _ (in_map fst _ _ Hp)). pose proof (Hx5 _ (in_map fst _ _ Hp)).
    pose proof (Hy2 _ (in_map snd _ _ Hp)). pose proof (Hy5 _ (in_map snd _ _ Hp)).
    lia.
  - destruct Hx3 as [E|Hin].
    + exists (x0, y0). split; [now left | now rewrite E].
    + apply in_map_iff in Hin. destruct Hin as [p [E Hp]].
      exists p. split; [now right | exact E].
  - destruct Hy3 as [E|Hin].
    + exists (x0, y0). split; [now left | now rewrite E].
    + apply in_map_iff in Hin. destruct Hin as [p [E Hp]].
      exists p. split; [now right | exact E].
Qed.


Lemma sumZ_app (l1 l2 : list Z) : sumZ (l1 ++ l2) = sumZ l1 + sumZ l2.
Proof.
  induction l1 as [|a l1 IH]; [reflexivity|].
  cbn [app sumZ fold_right]. fold (sumZ (l1 ++ l2)). fold (sumZ l1). lia.
Qed.

Lemma edges_app (q : point) (l1 l2 : list point) :
  edges q (l1 ++ l2) = edges q l1 ++ edges (last l1 q) l2.
Proof.
  revert q. induction l1 as [|a l1 IH]; intro q; [reflexivity|].
  cbn [app edges]. now rewrite IH, last_cons.
Qed.

Lemma last_app_cons (A : Type) (l1 l2 : list A) (a d : A) :
  last (l1 ++ a :: l2) d = last l2 a.
Proof.
  revert d. induction l1 as [|b l1 IH]; intro d; cbn [app].
  - apply last_cons.
  - rewrite last_cons. apply IH.
Qed.

(** The three sums of Green's formula run over the closed polygon. *)
Lemma moments_sums_closed (pts : list point) :
  moments_sums pts
  = (sumZ (map e00 (closed_edges pts)),
     sumZ (map e10 (closed_edges pts)),
     sumZ (map e01 (closed_edges pts))).
Proof.
  destruct pts as [|p0 ps]; [reflexivity|].
  unfold moments_sums, closed_edges. rewrite moments_fold. reflexivity.
Qed.

(** They do not depend on the vertex the list starts with. *)
Lemma closed_sum_rotate (f : point * point -> Z) (l1 l2 : list point) :
  sumZ (map f (closed_edges (l1 ++ l2)))
  = sumZ (map f (closed_edges (l2 ++ l1))).
Proof.
  destruct l1 as [|a1 l1]; [now rewrite app_nil_r|].
  destruct l2 as [|a2 l2]; [now rewrite app_nil_r|].
  unfold closed_edges. cbn [app].
  change (a1 :: l1 ++ a2 :: l2) with ((a1 :: l1) ++ a2 :: l2).
  change (a2 :: l2 ++ a1 :: l1) with ((a2 :: l2) ++ a1 :: l1).
  rewrite !last_app_cons, !edges_app, !map_app, !sumZ_app, !last_cons.
  lia.
Qed.

(** One more vertex [t] between [p] and [q]: the edge [(p, q)] gives way
    to the edges [(p, t)] and [(t, q)]. *)
Lemma closed_sum_ear (f : point * point -> Z) (l1 l2 : list point)
  (p t q : point) :
  sumZ (map f (closed_edges (l1 ++ p :: t :: q :: l2)))
  = sumZ (map f (closed_edges (l1 ++ p :: q :: l2)))
    + (f (p, t) + f (t, q) - f (p, q)).
Proof.
  assert (E : forall mid,
    closed_edges (l1 ++ p :: mid ++ q :: l2)
    = edges (last l2 q) (l1 ++ [p]) ++ edges p (mid ++ q :: l2)).
  { intros mid. unfold closed_edges.
    destruct (l1 ++ p :: mid ++ q :: l2) as [|z zs] eqn:Ez.
    - destruct l1; discriminate.
    - rewrite <- Ez.
      replace (last (l1 ++ p :: mid ++ q :: l2) z) with (last l2 q).
      + change (l1 ++ p :: mid ++ q :: l2) with (l1 ++ [p] ++ mid ++ q :: l2).
        rewrite app_assoc, edges_app. f_equal. f_equal.
        apply last_last.
      + change (l1 ++ p :: mid ++ q :: l2) with (l1 ++ (p :: mid) ++ q :: l2).
        rewrite app_assoc. now rewrite last_app_cons. }
  pose proof (E [t]) as Et. pose proof (E []) as En. cbn [app] in Et, En.
  rewrite Et, En. cbn [edges].
  rewrite !map_app, !sumZ_app. cbn [map sumZ fold_right].
  fold (sumZ (map f (edges q l2))). lia.
Qed.

Lemma ear_e00 (p t q : point) :
  e00 (p, t) + e00 (t, q) - e00 (p, q) = t00 p (t, q).
Proof.
  destruct p, t, q. unfold e00, t00. cbn [fst snd]. ring.
Qed.

Lemma ear_e10 (p t q : point) :
  e10 (p, t) + e10 (t, q) - e10 (p, q) = t10 p (t, q).
Proof.
  destruct p, t, q. unfold e10, t10, e00, t00. cbn [fst snd]. ring.
Qed.

Lemma ear_e01 (p t q : point) :
  e01 (p, t) + e01 (t, q) - e01 (p, q) = t01 p (t, q).
Proof.
  destruct p, t, q. unfold e01, t01, e00, t00. cbn [fst snd]. ring.
Qed.

(** The sums of a polygon cut into triangles that turn the same way: the
    area is not negative, and the first-order sums lie between the extreme
    coordinates of the vertices, weighted by the area. *)
Lemma ear_built_bounds (s : Z) (pts : list point) :
  s = 1 \/ s = -1 -> ear_built s pts ->
  forall lox hix loy hiy,
    (forall p, In p pts -> lox <= fst p <= hix /\ loy <= snd p <= hiy) ->
    let A := sumZ (map e00 (closed_edges pts)) in
    0 <= s * A /\
    (3 * lox + 1) * (s * A) <= s * sumZ (map e10 (closed_edges pts))
      <= (3 * hix - 1) * (s * A) /\
    (3 * loy + 1) * (s * A) <= s * sumZ (map e01 (closed_edges pts))
      <= (3 * hiy - 1) * (s * A).
Proof.
  intros Hs Hb. induction Hb as [a b c Ht | l1 p t q l2 Hb IH Ht | l1 l2 Hb IH];
    intros lox hix loy hiy Hin A; subst A.
  - assert (Ha := Hin a ltac:(simpl; tauto)).
    assert (Hb := Hin b ltac:(simpl; tauto)).
    assert (Hc := Hin c ltac:(simpl; tauto)).
    pose proof (@triangle_x_bounds a (b, c) lox hix s Hs
                  ltac:(tauto) ltac:(cbn; tauto) ltac:(cbn; tauto) Ht) as Hx.
    pose proof (@triangle_y_bounds a (b, c) loy hiy s Hs
                  ltac:(tauto) ltac:(cbn; tauto) ltac:(cbn; tauto) Ht) as Hy.
    unfold turn in Ht.
    replace (sumZ (map e00 (closed_edges [a; b; c]))) with (t00 a (b, c)).
    replace (sumZ (map e10 (closed_edges [a; b; c]))) with (t10 a (b, c)).
    replace (sumZ (map e01 (closed_edges [a; b; c]))) with (t01 a (b, c)).
    + tauto.
    + destruct a, b, c. unfold closed_edges, t01, t00, e01, e00, sumZ.
      cbn. ring.
    + destruct a, b, c. unfold closed_edges, t10, t00, e10, e00, sumZ.
      cbn. ring.
    + destruct a, b, c. unfold closed_edges, t00, e00, sumZ. cbn. ring.
  - rewrite !closed_sum_ear, ear_e00, ear_e10, ear_e01.
    destruct (IH lox hix loy hiy) as [I0 [I1 I2]].
    { intros r Hr. apply Hin. rewrite in_app_iff in *. simpl in *. tauto. }
    assert (Hp := Hin p ltac:(rewrite in_app_iff; simpl; tauto)).
    assert (Hq := Hin q ltac:(rewrite in_app_iff; simpl; tauto)).
    assert (Ht' := Hin t ltac:(rewrite in_app_iff; simpl; tauto)).
    pose proof (@triangle_x_bounds p (t, q) lox hix s Hs
                  ltac:(tauto) ltac:(cbn; tauto) ltac:(cbn; tauto) Ht) as Hx.
    pose proof (@triangle_y_bounds p (t, q) loy hiy s Hs
                  ltac:(tauto) ltac:(cbn; tauto) ltac:(cbn; tauto) Ht) as Hy.
    unfold turn in Ht. lia.
  - rewrite (closed_sum_rotate e00 l2 l1), (closed_sum_rotate e10 l2 l1),
      (closed_sum_rotate e01 l2 l1).
    apply IH. intros r Hr. apply Hin. rewrite in_app_iff in *. tauto.
Qed.

(** The area moment of the model, from the sum of Green's formula. *)
Lemma moments_area (pts : list point) :
  let A := sumZ (map e00 (closed_edges pts)) in
  ((m00 (moments pts) == 0)%Q <-> A = 0) /\
  ((0 < m00 (moments pts))%Q <-> A <> 0).
Proof.
  intro A. unfold moments. rewrite moments_sums_closed. fold A.
  destruct (Z.eqb_spec A 0) as [E|E]; cbn [m00].
  - split; split; intro H; try reflexivity; try exact E; try contradiction.
    now apply Qlt_irrefl in H.
  - destruct (Z.ltb_spec 0 A) as [H|H]; cbn [m00]; unfold Qeq, Qlt; simpl;
      split; split; intro; lia.
Qed.



(** The two coordinates of the centre, between the extreme coordinates of
    the vertices. *)
Lemma centre_position_bounds (pts : list point) (lox hix loy hiy : Z) :
  triangulated pts -> (0 < m00 (moments pts))%Q ->
  (forall p, In p pts -> lox <= fst p <= hix /\ loy <= snd p <= hiy) ->
  0 <= lox -> 0 <= loy ->
  (inject_Z (3 * lox) <= (100000 # 1) * m00 (moments pts))%Q ->
  (inject_Z (3 * loy) <= (100000 # 1) * m00 (moments pts))%Q ->
  let m := moments pts in
  lox <= int (m10 m / (m00 m + (1 # 100000))) <= hix /\
  loy <= int (m01 m / (m00 m + (1 # 100000))) <= hiy.
Proof.
  intros Ht Hpos Hin Hx Hy Nx Ny m.
  apply (proj2 (moments_area pts)) in Hpos.
  assert (Hb : exists s, (s = 1 \/ s = -1) /\ ear_built s pts).
  { destruct Ht as [H|H]; [exists 1 | exists (-1)]; split; tauto. }
  destruct Hb as [s [Hs Hb]].
  destruct (@ear_built_bounds s pts Hs Hb lox hix loy hiy Hin) as [HA [HB HC]].
  subst m. revert Nx Ny. unfold moments. rewrite moments_sums_closed.
  set (a00 := sumZ (map e00 (closed_edges pts))) in *.
  set (a10 := sumZ (map e10 (closed_edges pts))) in *.
  set (a01 := sumZ (map e01 (closed_edges pts))) in *.
  destruct (Z.eqb_spec a00 0) as [E|_]; [contradiction|].
  destruct Hs as [-> | ->].
  - destruct (Z.ltb_spec 0 a00) as [Hp|Hn]; [|lia].
    cbn [m00 m10 m01]. unfold Qle at 1 2. cbn [Qnum Qden inject_Z Qmult].
    intros Nx Ny. split; apply centroid_bounds; lia.
  - destruct (Z.ltb_spec 0 a00) as [Hp|Hn]; [lia|].
    cbn [m00 m10 m01]. unfold Qle at 1 2. cbn [Qnum Qden inject_Z Qmult].
    intros Nx Ny. split; apply centroid_bounds; lia.
Qed.

(** The ear-clipping test is sound. *)
Lemma ear_clip_sound (fuel : nat) (s : Z) (pts : list point) :
  ear_clip fuel s pts = true -> ear_built s pts.
Proof.
  revert pts. induction fuel as [|fuel IH]; intros pts H; [discriminate|].
  destruct pts as [|p [|v [|q rest]]]; try discriminate.
  cbn [ear_clip] in H. destruct rest as [|r rest].
  - apply ear_triangle. now apply Z.leb_le.
  - destruct (is_ear s p v q (r :: rest)) eqn:E.
    + unfold is_ear in E.
      apply andb_true_iff in E. destruct E as [E _]. apply Z.leb_le in E.
      apply (@ear_attach s [] p v q (r :: rest)); [|exact E].
      exact (IH _ H).
    + apply (@ear_rotate s (v :: q :: r :: rest) [p]). exact (IH _ H).
Qed.

Lemma ear_clipping_sound (pts : list point) :
  ear_clipping pts = true -> triangulated pts.
Proof.
  unfold ear_clipping, triangulated. intro H. apply orb_true_iff in H.
  destruct H as [H|H]; [left | right]; exact (@ear_clip_sound _ _ _ H).
Qed.




(** The rows of the box are taken from the first coordinate of the contour
    points and the row of the centre from the second: for a rectangle away
    from the diagonal, the centre [(104, 4)] is not in the box
    [(0, 100) - (11, 111)], although it is between the extreme coordinates
    of the vertices on each axis. *)
Lemma Contour_bbox_axes_example :
  let self :=
    Annotation.mkContour [(0, 100); (10, 100); (10, 110); (0, 110)]
      "Nucleus" 0 (-1) in
  Annotation.ContourM.centre moments self
  = Ok (Annotation.mkCentre (104, 4) 0 "Nucleus" (-1)) /\
  Annotation.ContourM.bbox boundingRect self
  = Annotation.mkBBox (0, 100) (11, 111) 0 "Nucleus" (-1) /\
  Annotation.withinb (104, 4) (Annotation.ContourM.bbox boundingRect self)
  = false.
Proof.
  cbv zeta. split; [reflexivity|]. split; reflexivity.
Qed.


(** Why the contour must not cross itself: the signed areas of the two
    loops of this one nearly cancel, and the centre's column is negative.
    No cut into triangles that turn the same way exists for it. *)
Lemma centre_of_crossing_contour_example :
  let self :=
    Annotation.mkContour [(0, 0); (4, 4); (4, 0); (0, 5)] "Nucleus" 0 (-1) in
  Annotation.ContourM.centre moments self
  = Ok (Annotation.mkCentre (2, -3) 0 "Nucleus" (-1)) /\
  boundingRect (Annotation.contour self) = (0, 0, 5, 6) /\
  (0 < m00 (moments (Annotation.contour self)))%Q /\
  ~ triangulated (Annotation.contour self).
Proof.
  cbv zeta. split; [reflexivity|]. split; [reflexivity|].
  split; [reflexivity|]. cbn [Annotation.contour]. intro Ht.
  destruct (@centre_position_bounds [(0, 0); (4, 4); (4, 0); (0, 5)]
              0 4 0 5 Ht eq_refl) as [[H _] _]; try lia.
  - intros p [<-|[<-|[<-|[<-|[]]]]]; cbn [fst snd]; lia.
  - vm_compute. discriminate.
  - vm_compute. discriminate.
  - vm_compute in H. now apply H.
Qed.

(** Why the corner of the rectangle is bounded by the area: far from the
    origin the stabilising epsilon moves the centre of a small triangle one
    pixel to the left of it. *)
Lemma centre_far_from_origin_example :
  let self :=
    Annotation.mkContour [(20000, 0); (20001, 0); (20000, 1)] "Nucleus" 0 (-1) in
  Annotation.ContourM.centre moments self
  = Ok (Annotation.mkCentre (0, 19999) 0 "Nucleus" (-1)) /\
  boundingRect (Annotation.contour self) = (20000, 0, 2, 2) /\
  m00 (moments (Annotation.contour self)) = (1 # 2)%Q /\
  triangulated (Annotation.contour self).
Proof.
  cbv zeta. split; [reflexivity|]. split; [reflexivity|].
  split; [reflexivity|]. now apply ear_clipping_sound.
Qed.



End ContourGeometry.

(** ** The dimensions and the centre of a box ([BBox]) *)

Section BBoxDims.

Import Annotation.

Lemma boundingRect_dims_nonneg (pts : list Cv2.point) :
  let '(_, _, w, h) := Cv2.boundingRect pts in 0 <= w /\ 0 <= h.
Proof.
  destruct pts as [|[x0 y0] rest]; cbn [Cv2.boundingRect]; [lia|].
  pose proof (proj1 (min_list_spec (map fst rest) x0)).
  pose proof (proj1 (max_list_spec (map fst rest) x0)).
  pose proof (proj1 (min_list_spec (map snd rest) y0)).
  pose proof (proj1 (max_list_spec (map snd rest) y0)).
  lia.
Qed.

(** C7 (amended). For every BBox, whatever its corners, [height] is the
    difference of the corner rows, [width] the difference of the corner
    columns, and [centre] is the midpoint of the corners under floor
    division. [height] and [width] are non-negative if and only if
    [bottom_right] is not above or left of [top_left] (the class accepts any
    pair of corners), and the centre then lies within the box. The boxes
    built by [Centre.bbox] and [Contour.bbox] have non-negative
    dimensions. *)
Theorem BBox_dims_centre (b : BBox) :
  BBoxM.height b = fst (bottom_right b) - fst (top_left b) /\
  BBoxM.width b = snd (bottom_right b) - snd (top_left b) /\
  position (BBoxM.centre b)
  = ((fst (top_left b) + fst (bottom_right b)) / 2,
     (snd (top_left b) + snd (bottom_right b)) / 2) /\
  2 * fst (position (BBoxM.centre b))
    <= fst (top_left b) + fst (bottom_right b)
    < 2 * fst (position (BBoxM.centre b)) + 2 /\
  2 * snd (position (BBoxM.centre b))
    <= snd (top_left b) + snd (bottom_right b)
    < 2 * snd (position (BBoxM.centre b)) + 2 /\
  ((0 <= BBoxM.height b /\ 0 <= BBoxM.width b) <->
   (fst (top_left b) <= fst (bottom_right b) /\
    snd (top_left b) <= snd (bottom_right b))) /\
  (0 <= BBoxM.height b -> 0 <= BBoxM.width b ->
   within (position (BBoxM.centre b)) b) /\
  (forall c : Centre,
     0 <= BBoxM.height (CentreM.bbox c) /\ 0 <= BBoxM.width (CentreM.bbox c)) /\
  (forall self : Contour,
     0 <= BBoxM.height (ContourM.bbox Cv2.boundingRect self) /\
     0 <= BBoxM.width (ContourM.bbox Cv2.boundingRect self)).
Proof.
  pose proof (Z.div_mod (fst (top_left b) + fst (bottom_right b)) 2 ltac:(lia)).
  pose proof (Z.mod_pos_bound (fst (top_left b) + fst (bottom_right b)) 2 ltac:(lia)).
  pose proof (Z.div_mod (snd (top_left b) + snd (bottom_right b)) 2 ltac:(lia)).
  pose proof (Z.mod_pos_bound (snd (top_left b) + snd (bottom_right b)) 2 ltac:(lia)).
  assert (Hc : position (BBoxM.centre b)
               = ((fst (top_left b) + fst (bottom_right b)) / 2,
                  (snd (top_left b) + snd (bottom_right b)) / 2)).
  { unfold BBoxM.centre. cbn [position].
    now rewrite (Z.add_comm (fst (bottom_right b))),
                (Z.add_comm (snd (bottom_right b))). }
  split; [apply BBox_height_eq|]. split; [apply BBox_width_eq|].
  split; [exact Hc|]. rewrite Hc. cbn [fst snd].
  split; [lia|]. split; [lia|].
  split; [apply BBox_dims_nonneg_iff|]. split; [|split].
  - rewrite BBox_height_eq, BBox_width_eq. unfold within.
    cbn [fst snd]. lia.
  - intro c. destruct (Centre_bbox_dims c) as [-> [-> _]]. lia.
  - intro self. rewrite BBox_height_eq, BBox_width_eq.
    unfold ContourM.bbox.
    pose proof (boundingRect_dims_nonneg (contour self)) as Hd.
    destruct (Cv2.boundingRect (contour self)) as [[[r c] h] w].
    cbn [top_left bottom_right fst snd]. lia.
Qed.

(** A box with ordered corners, and the box of the counterexample, whose
    corners are exchanged: each within the same statement. *)
Lemma BBox_dims_centre_witness :
  (let b := mkBBox (2, 3) (7, 10) 0 "Nucleus" 0 in
   BBoxM.height b = 5 /\ BBoxM.width b = 7 /\
   position (BBoxM.centre b) = (4, 6) /\
   within (position (BBoxM.centre b)) b) /\
  (let b := mkBBox (10, 10) (0, 0) 0 "" 0 in
   BBoxM.height b = -10 /\ BBoxM.width b = -10 /\
   position (BBoxM.centre b) = (5, 5)).
Proof.
  cbv zeta. split.
  - pose proof (BBox_dims_centre (mkBBox (2, 3) (7, 10) 0 "Nucleus" 0))
      as [Hh [Hw [Hc [_ [_ [_ [Hin _]]]]]]].
    split; [exact Hh|]. split; [exact Hw|]. split; [exact Hc|].
    apply Hin; rewrite ?Hh, ?Hw; simpl; lia.
  - pose proof (BBox_dims_centre (mkBBox (10, 10) (0, 0) 0 "" 0))
      as [Hh [Hw [Hc _]]].
    split; [exact Hh|]. split; [exact Hw|]. exact Hc.
Defined.

End BBoxDims.

(** ** Scoring one field ([cenfind.core.measure.field_score]) *)

Section FieldScoreFacts.

Variables FieldT ModelNuclei ModelFoci Nucleus : Type.
Variable field_name : FieldT -> string.
Variable extract_nuclei : FieldT -> Z -> ModelNuclei -> list Nucleus.
Variable spotnet : FieldT -> ModelFoci -> Z -> list (Z * Z).
Variable centre_position : Nucleus -> Z * Z.
Variable full_in_field : Z * Z -> FieldT -> Q -> bool.


End FieldScoreFacts.

(** ** The index of the frequency table *)

Section TableIndex.

Import Measure.

Lemma ascii_compare_trans (a b c : ascii) :
  Ascii.compare a b = Lt -> Ascii.compare b c = Lt -> Ascii.compare a c = Lt.
Proof.
  unfold Ascii.compare. rewrite !N.compare_lt_iff. apply N.lt_trans.
Qed.

Lemma string_compare_trans (a b c : string) :
  String.compare a b = Lt -> String.compare b c = Lt -> String.compare a c = Lt.
Proof.
  revert b c. induction a as [|x a IH]; intros [|y b] [|z c]; simpl;
    try discriminate; try reflexivity.
  destruct (Ascii.compare x y) eqn:Exy; try discriminate.
  - apply Ascii.compare_eq_iff in Exy. subst y.
    destruct (Ascii.compare x z) eqn:Exz; try discriminate; try reflexivity.
    apply IH.
  - intros _. destruct (Ascii.compare y z) eqn:Eyz; try discriminate.
    + apply Ascii.compare_eq_iff in Eyz. subst z. now rewrite Exy.
    + intros _. now rewrite (ascii_compare_trans _ _ _ Exy Eyz).
Qed.

Lemma string_compare_refl (a : string) : String.compare a a = Eq.
Proof.
  induction a as [|x a IH]; simpl; [reflexivity|].
  unfold Ascii.compare. now rewrite N.compare_refl.
Qed.

Lemma key_ltb_spec (a b : key) :
  key_ltb a b = true <->
  String.compare (fst a) (fst b) = Lt \/ (fst a = fst b /\ snd a < snd b).
Proof.
  unfold key_ltb, key_leb, key_eqb. destruct a as [f c], b as [g d].
  cbn [fst snd]. destruct (String.compare f g) eqn:E.
  - apply String.compare_eq_iff in E. subst g. rewrite String.eqb_refl.
    cbn [andb]. rewrite andb_true_iff, negb_true_iff, Z.leb_le, Z.eqb_neq.
    split; [intros [H1 H2]; right; split; [reflexivity | lia]|].
    intros [H|[_ H]]; [discriminate | lia].
  - split; [now left|]. intros _. cbn [andb].
    rewrite negb_true_iff, andb_false_iff. left. apply String.eqb_neq.
    intros ->. now rewrite string_compare_refl in E.
  - cbn [andb]. split; [discriminate|].
    intros [H|[-> _]]; [discriminate|].
    now rewrite string_compare_refl in E.
Qed.

Lemma key_ltb_trans (a b c : key) :
  key_ltb a b = true -> key_ltb b c = true -> key_ltb a c = true.
Proof.
  rewrite !key_ltb_spec. intros [H1|[E1 H1]] [H2|[E2 H2]].
  - left. eapply string_compare_trans; eauto.
  - left. now rewrite <- E2.
  - left. now rewrite E1.
  - right. split; [congruence | lia].
Qed.

Lemma key_ltb_irrefl (a : key) : key_ltb a a = false.
Proof.
  unfold key_ltb. now rewrite key_eqb_refl, andb_false_r.
Qed.

(** Of two different keys, one is before the other. *)
Lemma key_leb_false (a b : key) : key_leb a b = false -> key_ltb b a = true.
Proof.
  intro H. apply key_ltb_spec. unfold key_leb in H.
  rewrite String.compare_antisym.
  destruct (String.compare (fst a) (fst b)) eqn:E; try discriminate.
  - right. apply String.compare_eq_iff in E. split; [now symmetry|].
    apply Z.leb_gt in H. exact H.
  - now left.
Qed.

Lemma increasing_cons (a : key) (ks : list key) :
  increasing (a :: ks) = true <->
  (forall b, In b ks -> key_ltb a b = true) /\ increasing ks = true.
Proof.
  revert a. induction ks as [|b ks IH]; intro a.
  - simpl. split; [intros _; split; [intros ? []|reflexivity] | reflexivity].
  - change (increasing (a :: b :: ks))
      with (key_ltb a b && increasing (b :: ks)).
    rewrite andb_true_iff. split.
    + intros [Hab Hb]. split; [|exact Hb].
      intros x [<-|Hx]; [exact Hab|].
      apply (key_ltb_trans a b x Hab). now apply (proj1 (IH b) Hb).
    + intros [Hall Hb]. split; [apply Hall; now left | exact Hb].
Qed.

Lemma increasing_NoDup (ks : list key) : increasing ks = true -> NoDup ks.
Proof.
  induction ks as [|a ks IH]; intro H; [constructor|].
  apply increasing_cons in H. destruct H as [Hall Hks].
  constructor; [|now apply IH].
  intro Hin. specialize (Hall a Hin). now rewrite key_ltb_irrefl in Hall.
Qed.

Lemma insert_key_increasing (k : key) (ks : list key) :
  increasing ks = true -> increasing (insert_key k ks) = true.
Proof.
  induction ks as [|a ks IH]; intro H; [reflexivity|].
  cbn [insert_key]. destruct (key_eqb k a) eqn:E; [exact H|].
  destruct (key_leb k a) eqn:L.
  - apply increasing_cons. split; [|exact H].
    assert (Hka : key_ltb k a = true) by (unfold key_ltb; now rewrite L, E).
    intros b [<-|Hb]; [exact Hka|].
    apply (key_ltb_trans k a b Hka).
    now apply (proj1 (increasing_cons a ks) H).
  - apply increasing_cons in H. destruct H as [Hall Hks].
    apply increasing_cons. split; [|now apply IH].
    intros b Hb. apply in_insert_key in Hb. destruct Hb as [->|Hb].
    + now apply key_leb_false.
    + now apply Hall.
Qed.

Lemma group_keys_increasing (ks : list key) :
  increasing (group_keys ks) = true.
Proof.
  induction ks as [|k ks IH]; [reflexivity|].
  simpl. now apply insert_key_increasing.
Qed.

(** The records of [df] in group [k]. *)
Lemma rows_where_all (df : list ScoreRecord) (k : key) :
  rows_where df k (fun _ => true)
  = List.length (filter (fun r => key_eqb (key_of r) k) df).
Proof.
  unfold rows_where, key_of. f_equal. apply filter_ext. intro r.
  apply andb_true_r.
Qed.

(** Counting the records group by group, over groups that are all
    different and among which every record has its own, counts each record
    once. *)
Lemma partition_total (df : list ScoreRecord) (ks : list key) :
  NoDup ks -> (forall r, In r df -> In (key_of r) ks) ->
  list_sum (map (fun k => rows_where df k (fun _ => true)) ks)
  = List.length df.
Proof.
  intros Hnd Hin. induction df as [|r df IH].
  - clear Hnd Hin. induction ks as [|k ks IHk]; [reflexivity|].
    simpl. exact IHk.
  - assert (Hone : forall ks', NoDup ks' ->
              list_sum (map (fun k => if key_eqb (key_of r) k then 1%nat else 0%nat) ks')
              = if existsb (key_eqb (key_of r)) ks' then 1%nat else 0%nat).
    { induction ks' as [|k ks' IHk]; intro Hnd'; [reflexivity|].
      inversion Hnd' as [|? ? Hnot Hnd'']; subst. cbn [map list_sum fold_right existsb].
      fold (list_sum (map (fun k => if key_eqb (key_of r) k then 1%nat else 0%nat) ks')).
      rewrite (IHk Hnd''). destruct (key_eqb (key_of r) k) eqn:E; [|reflexivity].
      apply key_eqb_eq in E. subst k.
      destruct (existsb (key_eqb (key_of r)) ks') eqn:X; [|reflexivity].
      apply existsb_exists in X. destruct X as [k' [Hk' E']].
      apply key_eqb_eq in E'. subst k'. contradiction. }
    assert (Hsplit : forall ks',
              list_sum (map (fun k => rows_where (r :: df) k (fun _ => true)) ks')
              = (list_sum (map (fun k => if key_eqb (key_of r) k then 1%nat else 0%nat) ks')
                 + list_sum (map (fun k => rows_where df k (fun _ => true)) ks'))%nat).
    { induction ks' as [|k ks' IHk]; [reflexivity|].
      cbn [map list_sum fold_right].
      fold (list_sum (map (fun k => rows_where (r :: df) k (fun _ => true)) ks')).
      fold (list_sum (map (fun k => if key_eqb (key_of r) k then 1%nat else 0%nat) ks')).
      fold (list_sum (map (fun k => rows_where df k (fun _ => true)) ks')).
      rewrite IHk. rewrite !rows_where_all. cbn [filter].
      destruct (key_eqb (key_of r) k); simpl; lia. }
    rewrite Hsplit, (Hone ks Hnd), IH by (intros r' Hr'; apply Hin; now right).
    assert (X : existsb (key_eqb (key_of r)) ks = true).
    { apply existsb_exists. exists (key_of r). split; [apply Hin; now left|].
      apply key_eqb_refl. }
    rewrite X. reflexivity.
Qed.

(** X2. The rows of the frequency table are indexed by [(fov, channel)] in
    strictly increasing order (by [fov], then by [channel]): no group has
    two rows, and the groups are exactly those of the records. *)
Theorem frequency_table_index (df : list ScoreRecord) :
  let index := map fst (field_score_frequency df) in
  increasing index = true /\ NoDup index /\
  (forall k, In k index <-> exists r, In r df /\ key_of r = k) /\
  (forall k row row', In (k, row) (field_score_frequency df) ->
     In (k, row') (field_score_frequency df) -> row = row').
Proof.
  intro index.
  assert (E : index = group_keys (map key_of df)).
  { unfold index. rewrite field_score_frequency_eq, map_map. apply map_id. }
  assert (Hinc : increasing index = true)
    by (rewrite E; apply group_keys_increasing).
  split; [exact Hinc|]. split; [now apply increasing_NoDup|]. split.
  - intro k. rewrite E, in_group_keys, in_map_iff.
    split; intros [r [H1 H2]]; exists r; tauto.
  - intros k row row'. rewrite field_score_frequency_eq, !in_map_iff.
    intros [k1 [E1 _]] [k2 [E2 _]]. congruence.
Qed.

(** X3. Over the whole table the bucket counts add up to the number of
    score records: the binning loses no record and counts none twice. *)
Theorem frequency_table_total (df : list ScoreRecord) :
  list_sum (map (fun row => list_sum (map snd (snd row)))
              (field_score_frequency df))
  = List.length df.
Proof.
  rewrite field_score_frequency_eq, map_map. cbn [snd].
  rewrite (map_ext _ (fun k => rows_where df k (fun _ => true)))
    by (intro k; apply bucket_counts_total).
  apply partition_total.
  - apply increasing_NoDup, group_keys_increasing.
  - intros r Hr. apply in_group_keys, in_map_iff. now exists r.
Qed.

End TableIndex.


(** ** Boxes, crops and contours ([centrack.annotation]) *)

Section Crops.

Import Annotation Builtins.

Lemma len_nonneg (A : Type) (l : list A) : 0 <= len l.
Proof. unfold len. lia. Qed.

Lemma in_firstn (A : Type) (n : nat) (l : list A) (x : A) :
  In x (firstn n l) -> In x l.
Proof.
  intro H. rewrite <- (firstn_skipn n l). apply in_or_app. now left.
Qed.

Lemma in_skipn (A : Type) (n : nat) (l : list A) (x : A) :
  In x (skipn n l) -> In x l.
Proof.
  intro H. rewrite <- (firstn_skipn n l). apply in_or_app. now right.
Qed.

Lemma slice_in_range (A : Type) (l : list A) (a b : Z) :
  0 <= a <= b -> b <= len l ->
  slice l a b = firstn (Z.to_nat (b - a)) (skipn (Z.to_nat a) l) /\
  len (slice l a b) = b - a.
Proof.
  intros Hab Hb. unfold slice, slice_bound.
  destruct (Z.ltb_spec a 0); [lia|]. destruct (Z.ltb_spec b 0); [lia|].
  rewrite !Z.min_l by lia. split; [reflexivity|].
  unfold len in *. rewrite length_firstn, length_skipn. lia.
Qed.

Lemma slice_nth (A : Type) (l : list A) (a b : Z) (i : nat) (d : A) :
  0 <= a <= b -> b <= len l -> Z.of_nat i < b - a ->
  nth i (slice l a b) d = nth (Z.to_nat a + i) l d.
Proof.
  intros Hab Hb Hi. destruct (slice_in_range l Hab Hb) as [-> _].
  rewrite nth_firstn.
  destruct (Nat.ltb_spec i (Z.to_nat (b - a))); [|lia].
  apply nth_skipn.
Qed.

(** X5. For a box that lies within a rectangular image, [BBox.extract]
    returns a crop of [height] rows and [width] columns whose entry
    [(i, j)] is the entry [(top + i, left + j)] of the image. *)
Theorem BBox_extract_in_range (b : BBox) (image : array2) (ncols : Z) :
  rectangular image ncols ->
  0 <= fst (top_left b) <= fst (bottom_right b) ->
  fst (bottom_right b) <= len image ->
  0 <= snd (top_left b) <= snd (bottom_right b) ->
  snd (bottom_right b) <= ncols ->
  len (BBoxM.extract b image) = BBoxM.height b /\
  rectangular (BBoxM.extract b image) (BBoxM.width b) /\
  (forall i j, 0 <= i < BBoxM.height b -> 0 <= j < BBoxM.width b ->
     entry (BBoxM.extract b image) i j
     = entry image (fst (top_left b) + i) (snd (top_left b) + j)).
Proof.
  intros Hrect Hr Hr' Hc Hc'. rewrite BBox_height_eq, BBox_width_eq.
  unfold BBoxM.extract, slice2.
  destruct (top_left b) as [r0 c0], (bottom_right b) as [r1 c1].
  cbn [fst snd] in *.
  destruct (slice_in_range image Hr Hr') as [Es El].
  assert (Hsub : forall row, In row (slice image r0 r1) -> len row = ncols).
  { intros row Hrow. rewrite Es in Hrow.
    apply (proj1 (Forall_forall _ _) Hrect).
    apply (in_skipn (Z.to_nat r0)). eapply in_firstn; exact Hrow. }
  split; [|split].
  - unfold len in *. rewrite length_map. exact El.
  - apply Forall_forall. intros row' Hrow'. apply in_map_iff in Hrow'.
    destruct Hrow' as [row [<- Hrow]].
    apply slice_in_range; [exact Hc|]. rewrite (Hsub row Hrow). exact Hc'.
  - intros i j Hi Hj. unfold entry.
    assert (Hlen : (Z.to_nat i < List.length (slice image r0 r1))%nat)
      by (unfold len in El; lia).
    rewrite (nth_indep _ [] (slice [] c0 c1)) by (rewrite length_map; exact Hlen).
    rewrite (map_nth (fun row => slice row c0 c1)).
    assert (Hin : In (nth (Z.to_nat i) (slice image r0 r1) [])
                     (slice image r0 r1)) by (apply nth_In; exact Hlen).
    rewrite slice_nth; [|exact Hc | rewrite (Hsub _ Hin); exact Hc' | lia].
    rewrite slice_nth; [|exact Hr | exact Hr' | lia].
    rewrite <- !Z2Nat.inj_add by lia. reflexivity.
Qed.

Lemma BBox_extract_in_range_witness :
  let image := [[1; 2; 3; 4]; [5; 6; 7; 8]; [9; 10; 11; 12]] in
  let b := mkBBox (1, 1) (3, 3) 0 "" 0 in
  len (BBoxM.extract b image) = 2 /\
  entry (BBoxM.extract b image) 1 0 = entry image 2 1.
Proof.
  intros image b.
  assert (Hrect : rectangular image 4) by (repeat constructor).
  destruct (@BBox_extract_in_range b image 4 Hrect
              ltac:(vm_compute; intuition discriminate)
              ltac:(vm_compute; intuition discriminate)
              ltac:(vm_compute; intuition discriminate)
              ltac:(vm_compute; intuition discriminate)) as [H1 [_ H3]].
  split; [exact H1|]. apply (H3 1 0); vm_compute; intuition discriminate.
Defined.

(** X6. [Centre.extract] near the border of an image of at least 64 rows:
    a point less than 32 rows from the top gets an empty crop (the negative
    start of the slice counts from the bottom), while a point close to the
    bottom gets a crop that is cut at the last row. *)
Theorem Centre_extract_border (c : Centre) (plane : array2) :
  64 <= len plane ->
  (0 <= CentreM.row c < 32 -> Centre_extract c plane = []) /\
  (32 <= CentreM.row c <= len plane ->
   len (Centre_extract c plane)
   = Z.min (CentreM.row c + 32) (len plane) - (CentreM.row c - 32)).
Proof.
  intro Hn. unfold Centre_extract, BBoxM.extract, CentreM.bbox, slice2.
  cbn [top_left bottom_right]. set (r := CentreM.row c).
  pose proof (len_nonneg plane) as H0. split; intro Hr.
  - replace (slice plane (r - 32) (r + 32)) with (@nil (list Z)); [reflexivity|].
    unfold slice, slice_bound.
    destruct (Z.ltb_spec (r - 32) 0); [|lia].
    destruct (Z.ltb_spec (r + 32) 0); [lia|].
    replace (Z.to_nat (Z.min (r + 32) (len plane) - Z.max (r - 32 + len plane) 0))
      with 0%nat by lia.
    reflexivity.
  - unfold len at 1. rewrite length_map. fold (len (slice plane (r - 32) (r + 32))).
    unfold slice, slice_bound.
    destruct (Z.ltb_spec (r - 32) 0); [lia|].
    destruct (Z.ltb_spec (r + 32) 0); [lia|].
    unfold len in *. rewrite length_firstn, length_skipn. lia.
Qed.

Lemma Centre_extract_border_witness :
  let plane := repeat (repeat 7 64%nat) 64%nat in
  Centre_extract (mkCentre (10, 40) 0 "" 0) plane = [] /\
  len (Centre_extract (mkCentre (60, 40) 0 "" 0) plane) = 36.
Proof.
  intro plane.
  assert (Hn : 64 <= len plane) by (vm_compute; discriminate).
  split.
  - apply (proj1 (@Centre_extract_border (mkCentre (10, 40) 0 "" 0) plane Hn)).
    vm_compute. intuition discriminate.
  - apply (proj2 (@Centre_extract_border (mkCentre (60, 40) 0 "" 0) plane Hn)).
    vm_compute. intuition discriminate.
Defined.

(** X7. The box of a point and the centre of a box are inverse to each
    other on points: [Centre.bbox] is the 64 x 64 box around the point, and
    its [centre] is the point itself, index, label and confidence
    included. *)
Theorem Centre_bbox_centre (c : Centre) :
  BBoxM.centre (CentreM.bbox c) = c /\
  BBoxM.dims (CentreM.bbox c) = (64, 64) /\
  within (position c) (CentreM.bbox c).
Proof.
  destruct c as [[r k] i l q].
  unfold BBoxM.centre, BBoxM.dims, BBoxM.height, BBoxM.width, CentreM.bbox,
    CentreM.row, CentreM.col, within.
  cbn [top_left bottom_right position idx label confidence bbox_idx bbox_label
         bbox_confidence fst snd].
  replace (r + 32 + (r - 32)) with (r * 2) by lia.
  replace (k + 32 + (k - 32)) with (k * 2) by lia.
  rewrite !Z.div_mul by lia.
  split; [reflexivity|]. split; [f_equal; lia | lia].
Qed.

(** X8. The box of a non-empty contour, with OpenCV's smallest enclosing
    rectangle: [Contour.height] and [Contour.width] are the dimensions of
    [Contour.bbox], both at least 1, and every point of the contour, as
    stored, lies within the box. *)
Theorem Contour_bbox_encloses (self : Contour) :
  contour self <> [] ->
  ContourM.height Cv2.boundingRect self
    = BBoxM.height (ContourM.bbox Cv2.boundingRect self) /\
  ContourM.width Cv2.boundingRect self
    = BBoxM.width (ContourM.bbox Cv2.boundingRect self) /\
  1 <= ContourM.height Cv2.boundingRect self /\
  1 <= ContourM.width Cv2.boundingRect self /\
  (forall p, In p (contour self) ->
     within p (ContourM.bbox Cv2.boundingRect self)).
Proof.
  intro Hne. destruct (contour self) as [|p0 ps] eqn:E; [contradiction|].
  unfold ContourM.height, ContourM.width, ContourM.dims, ContourM.bbox, within.
  rewrite BBox_height_eq, BBox_width_eq, E.
  pose proof (boundingRect_spec p0 ps) as Hrect.
  destruct (Cv2.boundingRect (p0 :: ps)) as [[[x y] w] h].
  destruct Hrect as [Hall _]. cbn [top_left bottom_right fst snd].
  pose proof (Hall p0 (or_introl eq_refl)) as H0.
  repeat split; try lia; destruct (Hall p H) as [Hx Hy]; lia.
Qed.

Lemma Contour_bbox_encloses_witness :
  let self := mkContour [(0, 100); (10, 100); (10, 110); (0, 110)] "" 0 0 in
  within (10, 110) (ContourM.bbox Cv2.boundingRect self).
Proof.
  intro self.
  apply (proj2 (proj2 (proj2 (proj2
           (@Contour_bbox_encloses self ltac:(discriminate)))))).
  simpl. tauto.
Defined.

End Crops.

(** ** Shrinking an image ([cenfind.core.outline.resize_image]) *)

Section ResizeImageFacts.

Variable Image : Type.
Variable shape : Image -> Z * Z.
Variable cv2_resize : Image -> Z * Z -> Image.

Lemma floordiv_nonzero (a b : Z) :
  b <> 0 -> Builtins.floordiv a b = Ok (a / b).
Proof.
  intro H. unfold Builtins.floordiv.
  destruct (Z.eqb_spec b 0); [contradiction | reflexivity].
Qed.

Lemma floordiv_zero (a : Z) :
  Builtins.floordiv a 0
  = Raise (ZeroDivisionError "integer division or modulo by zero").
Proof. reflexivity. Qed.

(** [cv2.resize] (OpenCV, external) returns an image of the size asked for,
    and reads [dsize] as [(width, height)], while [shape] gives
    [(rows, columns)]. *)
Hypothesis cv2_resize_dsize :
  forall data w h, 0 < w -> 0 < h -> shape (cv2_resize data (w, h)) = (h, w).

(** X9. For a positive [factor], [resize_image] raises ZeroDivisionError
    exactly when the image has fewer rows than [factor] (the shrinkage
    factor [k = rows // factor] is then 0). Otherwise it asks OpenCV for the
    size [(rows // k, columns // k)], which OpenCV reads as
    [(width, height)]: the result has [columns // k] rows and [rows // k]
    columns, so the two sides of an image that is not square are exchanged.
    It is the number of columns of the result that is at least [factor] and
    less than twice [factor], and [factor] itself when [factor] divides the
    number of rows. *)
Theorem resize_image_size (data : Image) (factor : Z) :
  0 < factor -> 0 <= fst (shape data) ->
  let rows := fst (shape data) in
  let columns := snd (shape data) in
  let k := rows / factor in
  (rows < factor ->
   Outline.resize_image shape cv2_resize data factor
   = Raise (ZeroDivisionError "integer division or modulo by zero")) /\
  (factor <= rows ->
   Outline.resize_image shape cv2_resize data factor
   = Ok (cv2_resize data (rows / k, columns / k)) /\
   factor <= rows / k < 2 * factor /\
   (rows mod factor = 0 -> rows / k = factor) /\
   (k <= columns ->
    shape (cv2_resize data (rows / k, columns / k))
    = (columns / k, rows / k))).
Proof.
  intros Hf Hh rows columns k. unfold Outline.resize_image.
  fold rows in Hh. subst k columns.
  destruct (shape data) as [h w]. cbn [fst snd] in *. subst rows.
  rewrite floordiv_nonzero by lia. cbn [bind]. split; intro H.
  - rewrite Z.div_small by lia. reflexivity.
  - assert (Hs : 1 <= h / factor).
    { apply Z.div_le_lower_bound; lia. }
    rewrite !floordiv_nonzero by lia. cbn [bind].
    split; [reflexivity|].
    pose proof (Z.div_mod h factor ltac:(lia)) as Hdm.
    pose proof (Z.mod_pos_bound h factor Hf) as Hm.
    set (s := h / factor) in *. set (r := h mod factor) in *.
    assert (Hlo : factor <= h / s) by (apply Z.div_le_lower_bound; nia).
    split; [split|split].
    + exact Hlo.
    + apply Z.div_lt_upper_bound; nia.
    + intro Hr. rewrite Hr in Hdm. rewrite Hdm at 1.
      replace (factor * s + 0) with (factor * s) by lia.
      apply Z.div_mul. lia.
    + intro Hw. apply cv2_resize_dsize; [lia|].
      apply Z.div_str_pos. lia.
Qed.

End ResizeImageFacts.

(** An image stands for its shape [(rows, columns)]; resizing to
    [(width, height)] gives the shape [(height, width)]. An image of 1000
    rows and 3000 columns comes out with 1000 rows and 333 columns. *)
Lemma resize_image_size_witness :
  let shape := fun d : Z * Z => d in
  let cv2_resize := fun (_ : Z * Z) (dsize : Z * Z) => (snd dsize, fst dsize) in
  Outline.resize_image shape cv2_resize (1000, 3000) 256 = Ok (1000, 333) /\
  Outline.resize_image shape cv2_resize (100, 100) 256
  = Raise (ZeroDivisionError "integer division or modulo by zero").
Proof.
  cbv zeta.
  pose proof (@resize_image_size (Z * Z) (fun d => d)
                (fun _ dsize => (snd dsize, fst dsize))
                ltac:(intros; reflexivity)) as T.
  destruct (T (1000, 3000) 256 ltac:(lia) ltac:(simpl; lia)) as [_ H].
  destruct (H ltac:(simpl; lia)) as [H1 _].
  destruct (T (100, 100) 256 ltac:(lia) ltac:(simpl; lia)) as [H3 _].
  split; [exact H1|]. apply H3. simpl. lia.
Defined.


(** ** The other centres of a contour ([utils.cnt_centre],
    [structures.Nucleus.centre]) *)

Section OtherCentres.

Variable cv2_moments : list Cv2.point -> Cv2.Moments.

Lemma truediv_zero (a b : Q) :
  (b == 0)%Q -> truediv a b = Raise (ZeroDivisionError "float division by zero").
Proof.
  intro H. unfold truediv. now rewrite (Qeq_eq_bool _ _ H).
Qed.

Lemma truediv_nonzero (a b : Q) : ~ (b == 0)%Q -> truediv a b = Ok (a / b)%Q.
Proof.
  intro H. unfold truediv. destruct (Qeq_bool b 0) eqn:E; [|reflexivity].
  apply Qeq_bool_eq in E. contradiction.
Qed.

Lemma moments_single (p : Cv2.point) :
  Cv2.moments [p] = Cv2.mkMoments 0 0 0.
Proof.
  destruct p as [x y]. unfold Cv2.moments, Cv2.moments_sums. cbn.
  replace (x * y - x * y) with 0 by ring. reflexivity.
Qed.

(** X10. [cnt_centre] of [utils.py] divides by the area moment as it is: it
    returns [(int(m10 / m00), int(m01 / m00))] when [m00] is not zero and
    raises ZeroDivisionError when it is, as for a contour of a single
    point, where [Contour.centre] returns the origin instead. *)
Theorem cnt_centre_unguarded (contour : list Cv2.point) :
  let m := cv2_moments contour in
  (returns (Utils.cnt_centre cv2_moments contour) <-> ~ (Cv2.m00 m == 0)%Q) /\
  ((Cv2.m00 m == 0)%Q ->
   Utils.cnt_centre cv2_moments contour
   = Raise (ZeroDivisionError "float division by zero")) /\
  (~ (Cv2.m00 m == 0)%Q ->
   Utils.cnt_centre cv2_moments contour
   = Ok (int (Cv2.m10 m / Cv2.m00 m), int (Cv2.m01 m / Cv2.m00 m))) /\
  (forall p : Cv2.point,
     Utils.cnt_centre Cv2.moments [p]
     = Raise (ZeroDivisionError "float division by zero") /\
     forall l i q,
       Annotation.ContourM.centre Cv2.moments (Annotation.mkContour [p] l i q)
       = Ok (Annotation.mkCentre (0, 0) i l q)).
Proof.
  intro m.
  assert (Hz : (Cv2.m00 m == 0)%Q ->
               Utils.cnt_centre cv2_moments contour
               = Raise (ZeroDivisionError "float division by zero")).
  { intro H. unfold Utils.cnt_centre. fold m. now rewrite (truediv_zero _ H). }
  assert (Hnz : ~ (Cv2.m00 m == 0)%Q ->
                Utils.cnt_centre cv2_moments contour
                = Ok (int (Cv2.m10 m / Cv2.m00 m), int (Cv2.m01 m / Cv2.m00 m))).
  { intro H. unfold Utils.cnt_centre. fold m.
    now rewrite !(truediv_nonzero _ H). }
  split; [|split; [exact Hz | split; [exact Hnz|]]].
  - split.
    + intros [r Hr] H0. rewrite (Hz H0) in Hr. discriminate Hr.
    + intro H. eexists. apply Hnz, H.
  - intro p. split.
    + unfold Utils.cnt_centre. rewrite moments_single. reflexivity.
    + intros l i q. unfold Annotation.ContourM.centre.
      cbn [Annotation.contour]. rewrite moments_single. reflexivity.
Qed.

End OtherCentres.

Lemma cnt_centre_unguarded_witness :
  Utils.cnt_centre Cv2.moments [(0, 0); (0, 20); (20, 20); (20, 0)]
  = Ok (10, 10) /\
  Utils.cnt_centre Cv2.moments [(0, 0); (20, 20)]
  = Raise (ZeroDivisionError "float division by zero").
Proof.
  split.
  - apply (proj1 (proj2 (proj2
             (@cnt_centre_unguarded Cv2.moments
                [(0, 0); (0, 20); (20, 20); (20, 0)])))).
    discriminate.
  - apply (proj1 (proj2
             (@cnt_centre_unguarded Cv2.moments [(0, 0); (20, 20)]))).
    reflexivity.
Defined.


(** ** The three computations of a contour's centre *)

Section CentresAgree.

Variable cv2_moments : list Cv2.point -> Cv2.Moments.

(** X11. [Contour.centre] of [annotation.py], [Contour.centre] of
    [outline.py] and [Nucleus.centre] of [structures.py] agree on every
    contour, whatever the moments: they return the same [(row, col)]
    position, or raise the same error. *)
Theorem contour_centres_agree (pts : list Cv2.point) (l : string) (i : Z)
  (q : Q) :
  (c <- Annotation.ContourM.centre cv2_moments (Annotation.mkContour pts l i q) ;;
   Ok (Annotation.position c))
  = Structures.Nucleus_centre cv2_moments pts /\
  (c <- Outline.Contour_centre cv2_moments (Outline.mkContour pts l i q) ;;
   Ok (Outline.position c))
  = Structures.Nucleus_centre cv2_moments pts.
Proof.
  unfold Annotation.ContourM.centre, Outline.Contour_centre,
    Structures.Nucleus_centre, Annotation.ContourM.eps, Outline.eps, truediv.
  cbn [Annotation.contour Outline.contour].
  destruct (Qeq_bool (Cv2.m00 (cv2_moments pts) + (1 # 100000)) 0);
    split; reflexivity.
Qed.

End CentresAgree.

(** ** The intensity around a centriole ([structures.Centriole.intensity]) *)

Section Intensity.

Import Builtins Structures.

Lemma slice_empty (A : Type) (l : list A) (a : Z) : slice l a a = [].
Proof.
  unfold slice. now rewrite Z.sub_diag.
Qed.

(** X12. With the default half-width [k = 0] the window of
    [Centriole.intensity] is empty: the result is 0 for every image of two
    dimensions and every centre, and for every valid channel of a stack. A
    stack without a channel raises ValueError, and a channel outside the
    stack IndexError. *)
Theorem intensity_default_is_zero (centre : Z * Z) :
  (forall plane channel, intensity centre (Image2 plane) 0 channel = Ok 0) /\
  (forall planes ch plane, take_axis0 planes ch = Ok plane ->
     intensity centre (Image3 planes) 0 (Some ch) = Ok 0) /\
  (forall planes k,
     intensity centre (Image3 planes) k None
     = Raise (ValueError "Channel must be supplied when image has 3 dimensions")) /\
  (forall planes k ch, len planes <= ch \/ ch < - len planes ->
     intensity centre (Image3 planes) k (Some ch)
     = Raise (IndexError "index is out of bounds for axis 0")).
Proof.
  destruct centre as [r c]. unfold intensity.
  split; [|split; [|split]].
  - intros plane channel. destruct (shape_last2 (Image2 plane)) as [max_r max_c].
    rewrite !Z.sub_0_r, !Z.add_0_r. unfold slice2. now rewrite slice_empty.
  - intros planes ch plane H. destruct (shape_last2 (Image3 planes)) as [max_r max_c].
    rewrite H. cbn [bind].
    rewrite !Z.sub_0_r, !Z.add_0_r. unfold slice2. now rewrite slice_empty.
  - intros planes k. now destruct (shape_last2 (Image3 planes)).
  - intros planes k ch H. destruct (shape_last2 (Image3 planes)) as [max_r max_c].
    replace (take_axis0 planes ch) with
      (@Raise array2 (IndexError "index is out of bounds for axis 0"));
      [reflexivity|].
    unfold take_axis0. pose proof (len_nonneg planes) as Hn.
    destruct (Z.ltb_spec ch 0).
    + destruct (Z.ltb_spec (ch + len planes) 0); [reflexivity | lia].
    + destruct (Z.ltb_spec ch 0); [lia|].
      destruct (Z.leb_spec (len planes) ch); [reflexivity | lia].
Qed.

End Intensity.

(** ** Marker names ([status.get_markers], [utils.markers_from]) *)

Section Markers.

Import Builtins.

Local Open Scope string_scope.

Lemma sapp_nil_r (s : string) : s ++ "" = s.
Proof. induction s as [|c s IH]; simpl; [reflexivity | now rewrite IH]. Qed.

Lemma sapp_assoc (a b c : string) : (a ++ b) ++ c = a ++ (b ++ c).
Proof. induction a as [|x a IH]; simpl; [reflexivity | now rewrite IH]. Qed.

Lemma prefix_app (a b : string) :
  prefix a b = true -> exists rest, b = a ++ rest.
Proof.
  revert b. induction a as [|x a IH]; intros b H.
  - exists b. reflexivity.
  - destruct b as [|y b]; simpl in H; [discriminate|].
    destruct (ascii_dec x y) as [->|]; [|discriminate].
    destruct (IH b H) as [rest ->]. now exists rest.
Qed.

Lemma split_skip (sep t rest cur : string) :
  split_aux sep (t ++ rest) (String.length t) cur = split_aux sep rest 0 cur.
Proof.
  induction t as [|c t IH]; simpl; [reflexivity | exact IH].
Qed.

Lemma split_aux_nonempty (sep s : string) (skip : nat) (cur : string) :
  exists x l, split_aux sep s skip cur = x :: l.
Proof.
  revert skip cur. induction s as [|c s IH]; intros skip cur;
    cbn [split_aux].
  - now exists cur, [].
  - destruct skip as [|k]; [|apply IH].
    destruct (prefix sep (String c s)); [|apply IH].
    eexists. eexists. reflexivity.
Qed.

Lemma concat_cons (sep x : string) (l : list string) :
  l <> [] -> String.concat sep (x :: l) = x ++ sep ++ String.concat sep l.
Proof.
  destruct l; [contradiction | reflexivity].
Qed.

(** Joining the pieces of a split with the separator gives the string
    back. *)
Lemma join_split_aux (sep : string) (n : nat) :
  sep <> "" ->
  forall s cur, (String.length s <= n)%nat ->
    String.concat sep (split_aux sep s 0 cur) = cur ++ s.
Proof.
  intro Hsep. induction n as [|n IH]; intros s cur Hlen.
  - destruct s; [|simpl in Hlen; lia]. simpl. now rewrite sapp_nil_r.
  - destruct s as [|c s]; [simpl; now rewrite sapp_nil_r|].
    cbn [split_aux]. destruct (prefix sep (String c s)) eqn:P.
    + destruct (prefix_app _ _ P) as [rest E].
      destruct sep as [|c' sep']; [contradiction|].
      simpl in E. injection E as Ec Es. subst c' s.
      replace (String.length (String c sep') - 1)%nat
        with (String.length sep') by (simpl; lia).
      rewrite split_skip.
      destruct (split_aux_nonempty (String c sep') rest 0 "") as [x [l Hx]].
      rewrite concat_cons by (rewrite Hx; discriminate).
      rewrite IH.
      * simpl. reflexivity.
      * simpl in Hlen.
        assert (String.length (sep' ++ rest) >= String.length rest)%nat.
        { clear. induction sep'; simpl; lia. }
        lia.
    + rewrite IH by (simpl in Hlen; lia).
      rewrite sapp_assoc. reflexivity.
Qed.

Lemma join_split (s sep : string) :
  sep <> "" ->
  exists parts, split s sep = Ok parts /\ String.concat sep parts = s.
Proof.
  intro Hsep. unfold split.
  destruct (String.eqb_spec sep ""); [contradiction|].
  eexists. split; [reflexivity|].
  now rewrite (join_split_aux (n := String.length s) Hsep).
Qed.

Lemma contains_spec (l : list string) (x : string) :
  contains l x = true <-> In x l.
Proof.
  unfold contains. rewrite existsb_exists. split.
  - intros [y [Hy E]]. apply String.eqb_eq in E. now subst.
  - intro H. exists x. split; [exact H | apply String.eqb_refl].
Qed.

Lemma prefix_char (c x : ascii) (s : string) :
  prefix (String c "") (String x s) = Ascii.eqb c x.
Proof.
  cbn [prefix]. destruct (ascii_dec c x) as [<-|n].
  - rewrite Ascii.eqb_refl. destruct s; reflexivity.
  - symmetry. now apply Ascii.eqb_neq.
Qed.

Lemma has_char_app (c : ascii) (a b : string) :
  has_char c (a ++ b) = has_char c a || has_char c b.
Proof.
  induction a as [|x a IH]; cbn [append has_char]; [reflexivity|].
  now rewrite IH, orb_assoc.
Qed.

(** No piece of a split by one character holds that character. *)
Lemma split_char_pieces (c : ascii) (s cur : string) :
  has_char c cur = false ->
  forall p, In p (split_aux (String c "") s 0 cur) -> has_char c p = false.
Proof.
  revert cur. induction s as [|x s IH]; intros cur Hcur p Hp.
  - destruct Hp as [<-|[]]. exact Hcur.
  - cbn [split_aux] in Hp. rewrite prefix_char in Hp.
    destruct (Ascii.eqb c x) eqn:E.
    + change (String.length (String c "") - 1)%nat with 0%nat in Hp.
      destruct Hp as [<-|Hp]; [exact Hcur|].
      now apply (IH "" eq_refl).
    + apply (IH (cur ++ String x "")); [|exact Hp].
      rewrite has_char_app, Hcur. cbn [has_char]. now rewrite E.
Qed.

(** A piece ends where the first separator character stands. *)
Lemma piece_inj (c : ascii) (x y rx ry : string) :
  has_char c x = false -> has_char c y = false ->
  (rx = "" \/ exists r, rx = String c r) ->
  (ry = "" \/ exists r, ry = String c r) ->
  x ++ rx = y ++ ry -> x = y /\ rx = ry.
Proof.
  revert y. induction x as [|a x IH]; intros y Hx Hy Hrx Hry E.
  - destruct y as [|b y]; [now split|]. exfalso.
    cbn [append] in E. cbn [has_char] in Hy. apply orb_false_iff in Hy.
    destruct Hrx as [->|[r ->]]; [discriminate|].
    injection E as -> _. now rewrite Ascii.eqb_refl in Hy.
  - cbn [has_char] in Hx. apply orb_false_iff in Hx. destruct Hx as [Hxa Hx].
    destruct y as [|b y].
    + exfalso. cbn [append] in E.
      destruct Hry as [->|[r ->]]; [discriminate|].
      injection E as -> _. now rewrite Ascii.eqb_refl in Hxa.
    + cbn [has_char] in Hy. apply orb_false_iff in Hy. destruct Hy as [_ Hy].
      cbn [append] in E. injection E as -> E.
      destruct (IH y Hx Hy Hrx Hry E) as [-> ->]. now split.
Qed.

Lemma concat_tail (sep x : string) (l : list string) :
  String.concat sep (x :: l)
  = x ++ match l with [] => "" | _ :: _ => sep ++ String.concat sep l end.
Proof.
  destruct l; [symmetry; apply sapp_nil_r | reflexivity].
Qed.

(** The pieces between the occurrences of a character are determined by
    the string. *)
Lemma pieces_unique (c : ascii) (l l' : list string) :
  l <> [] -> l' <> [] ->
  (forall p, In p l -> has_char c p = false) ->
  (forall p, In p l' -> has_char c p = false) ->
  String.concat (String c "") l = String.concat (String c "") l' ->
  l = l'.
Proof.
  revert l'. induction l as [|x l IH]; intros l' Hl Hl' Hc Hc' E;
    [contradiction|].
  destruct l' as [|y l']; [contradiction|].
  rewrite !concat_tail in E.
  apply (@piece_inj c) in E.
  - destruct E as [-> E]. f_equal.
    destruct l as [|x1 l], l' as [|y1 l']; try reflexivity; try discriminate.
    apply IH; try discriminate.
    + intros p Hp. apply Hc. now right.
    + intros p Hp. apply Hc'. now right.
    + cbn [append] in E. now injection E.
  - apply Hc. now left.
  - apply Hc'. now left.
  - destruct l; [now left | right; eexists; reflexivity].
  - destruct l'; [now left | right; eexists; reflexivity].
Qed.

(** X13. For a delimiter character, the markers that [get_markers] reads
    are the pieces of the input between the delimiters: the one non-empty
    list of strings without the delimiter that, joined by it, gives the
    input. The result is that list, with DAPI put in front when no piece is
    DAPI; a DAPI that is already there stays where it is, first or not. *)
Theorem get_markers_keeps_markers (markers : string) (c : ascii) :
  let sep := String c "" in
  exists parts,
    parts <> [] /\
    String.concat sep parts = markers /\
    (forall p, In p parts -> has_char c p = false) /\
    (forall l, l <> [] -> String.concat sep l = markers ->
       (forall p, In p l -> has_char c p = false) -> l = parts) /\
    (In "DAPI" parts -> Status.get_markers markers sep = Ok parts) /\
    (~ In "DAPI" parts ->
     Status.get_markers markers sep = Ok ("DAPI" :: parts)).
Proof.
  intro sep. assert (Hsep : sep <> "") by discriminate.
  destruct (join_split markers Hsep) as [parts [Hs Hj]].
  assert (Hparts : parts = split_aux sep markers 0 "").
  { unfold split in Hs. destruct (String.eqb sep ""); [discriminate|].
    now injection Hs. }
  assert (Hne : parts <> []).
  { rewrite Hparts.
    destruct (split_aux_nonempty sep markers 0 "") as [x [l ->]].
    discriminate. }
  assert (Hno : forall p, In p parts -> has_char c p = false).
  { rewrite Hparts. now apply split_char_pieces. }
  exists parts. split; [exact Hne|]. split; [exact Hj|]. split; [exact Hno|].
  split; [|split].
  - intros l Hl El Hcl. apply (@pieces_unique c); try assumption.
    fold sep. now rewrite El, Hj.
  - intro Hin. unfold Status.get_markers. rewrite Hs. cbn [bind].
    apply contains_spec in Hin. now rewrite Hin.
  - intro Hn. unfold Status.get_markers. rewrite Hs. cbn [bind].
    destruct (contains parts "DAPI") eqn:C; [|reflexivity].
    apply contains_spec in C. contradiction.
Qed.

Lemma get_markers_keeps_markers_witness :
  Status.get_markers "CEP63+DAPI+PCNT" "+" = Ok ["CEP63"; "DAPI"; "PCNT"] /\
  Status.get_markers "CEP63+PCNT" "+" = Ok ["DAPI"; "CEP63"; "PCNT"].
Proof.
  split.
  - destruct (@get_markers_keeps_markers "CEP63+DAPI+PCNT" "+")
      as [parts [_ [_ [_ [Hu [Hin _]]]]]].
    assert (E : ["CEP63"; "DAPI"; "PCNT"] = parts).
    { apply Hu; [discriminate | reflexivity |].
      intros p [<-|[<-|[<-|[]]]]; reflexivity. }
    subst parts. apply Hin. simpl. tauto.
  - destruct (@get_markers_keeps_markers "CEP63+PCNT" "+")
      as [parts [_ [_ [_ [Hu [_ Hout]]]]]].
    assert (E : ["CEP63"; "PCNT"] = parts).
    { apply Hu; [discriminate | reflexivity |].
      intros p [<-|[<-|[]]]; reflexivity. }
    subst parts. apply Hout.
    intros [H|[H|[]]]; discriminate H.
Defined.

End Markers.

Section MarkersFrom.

Import Builtins.

Local Open Scope string_scope.

Lemma prefix_underscore (c : ascii) (s : string) :
  prefix "_" (String c s) = Ascii.eqb "_" c.
Proof.
  cbn [prefix]. destruct (ascii_dec "_" c) as [<-|n].
  - destruct s; reflexivity.
  - symmetry. now apply Ascii.eqb_neq.
Qed.

(** A string without underscore is one piece. *)
Lemma split_no_underscore (s cur : string) :
  has_char "_" s = false -> split_aux "_" s 0 cur = [cur ++ s].
Proof.
  revert cur. induction s as [|c s IH]; intros cur H.
  - simpl. now rewrite sapp_nil_r.
  - cbn [has_char] in H. apply orb_false_iff in H. destruct H as [Hc Hs].
    cbn [split_aux]. rewrite prefix_underscore, Hc.
    rewrite (IH _ Hs), sapp_assoc. reflexivity.
Qed.

(** What follows the last underscore is the last piece. *)
Lemma split_last_underscore (s t cur : string) :
  has_char "_" t = false ->
  split_aux "_" (s ++ "_" ++ t) 0 cur = (split_aux "_" s 0 cur ++ [t])%list.
Proof.
  intro Ht. revert cur. induction s as [|c s IH]; intro cur.
  - cbn [append split_aux]. rewrite prefix_underscore. cbn [Ascii.eqb].
    simpl. now rewrite (@split_no_underscore t "" Ht).
  - change (String c s ++ "_" ++ t) with (String c (s ++ "_" ++ t)).
    cbn [split_aux]. rewrite !prefix_underscore.
    destruct (Ascii.eqb "_" c).
    + change (String.length "_" - 1)%nat with 0%nat.
      rewrite IH. reflexivity.
    + apply IH.
Qed.

Lemma getitem_second_last {A : Type} (l : list A) (x y : A) :
  getitem (l ++ [x; y])%list (-2) = Ok x.
Proof.
  unfold getitem, len. rewrite length_app. cbn [List.length].
  change (-2 <? 0)%Z with true. cbv iota.
  replace (-2 + Z.of_nat (List.length l + 2))%Z with (Z.of_nat (List.length l))
    by lia.
  destruct (Z.ltb_spec (Z.of_nat (List.length l)) 0); [lia|].
  destruct (Z.leb_spec (Z.of_nat (List.length l + 2))
              (Z.of_nat (List.length l))); [lia|].
  cbn [orb]. rewrite Nat2Z.id, nth_error_app2 by lia.
  now rewrite Nat.sub_diag.
Qed.

Lemma getitem_single {A : Type} (x : A) :
  getitem [x] (-2) = Raise (IndexError "list index out of range").
Proof. reflexivity. Qed.

(** X14. A dataset name without underscore has no marker field:
    [markers_from] raises IndexError at [split('_')[-2]], whatever the
    marker separator, the empty one included (the second split is not
    reached). *)
Theorem markers_from_no_underscore (dataset_name marker_sep : string) :
  has_char "_" dataset_name = false ->
  Utils.markers_from dataset_name marker_sep =
    Raise (IndexError "list index out of range").
Proof.
  intro H. unfold Utils.markers_from, split.
  change (String.eqb "_" "") with false. cbv iota. cbn [bind].
  rewrite (@split_no_underscore dataset_name "" H). reflexivity.
Qed.

Lemma markers_from_no_underscore_witness :
  Utils.markers_from "CEP63+CETN2" "+" =
    Raise (IndexError "list index out of range").
Proof.
  apply (@markers_from_no_underscore "CEP63+CETN2" "+"). reflexivity.
Defined.

(** X15. [markers_from] reads the markers from the piece just before the
    last underscore of the dataset name, and treats it as [get_markers]
    does: for [b] and [c] without underscore, the names [b_c] and [a_b_c]
    (any [a]) both give the enumerated markers of [b]. So the last piece
    [c] is never read, and a name of the form [genotype_markers] yields
    the genotype. *)
Theorem markers_from_second_last_field (a b c marker_sep : string) :
  has_char "_" b = false ->
  has_char "_" c = false ->
  let expected :=
    markers <- Status.get_markers b marker_sep ;; Ok (enumerate markers) in
  Utils.markers_from (b ++ "_" ++ c) marker_sep = expected /\
  Utils.markers_from (a ++ "_" ++ b ++ "_" ++ c) marker_sep = expected.
Proof.
  intros Hb Hc expected. subst expected.
  assert (Hfield : forall parts,
    (field <- getitem (parts ++ [b; c])%list (-2) ;;
     markers <- split field marker_sep ;;
     let markers :=
       if negb (contains markers "DAPI") then "DAPI" :: markers
       else markers in
     Ok (enumerate markers)) =
    (markers <- Status.get_markers b marker_sep ;; Ok (enumerate markers))).
  { intro parts. rewrite getitem_second_last. cbn [bind].
    unfold Status.get_markers.
    destruct (split b marker_sep) as [m|e]; reflexivity. }
  unfold Utils.markers_from, split.
  change (String.eqb "_" "") with false. cbv iota. cbn [bind].
  split.
  - rewrite (@split_last_underscore b c "" Hc).
    rewrite (@split_no_underscore b "" Hb).
    exact (Hfield []).
  - replace (a ++ "_" ++ b ++ "_" ++ c) with ((a ++ "_" ++ b) ++ "_" ++ c)
      by (now rewrite !sapp_assoc).
    rewrite (@split_last_underscore (a ++ "_" ++ b) c "" Hc).
    rewrite (@split_last_underscore a b "" Hb).
    rewrite <- app_assoc. exact (Hfield (split_aux "_" a 0 "")).
Qed.

Lemma markers_from_second_last_field_witness :
  Utils.markers_from "RPE1wt_CEP63+CETN2" "+" =
    Ok [(0, "DAPI"); (1, "RPE1wt")] /\
  Utils.markers_from "RPE1wt_CEP63+CETN2_1" "+" =
    Ok [(0, "DAPI"); (1, "CEP63"); (2, "CETN2")].
Proof.
  split.
  - exact (proj1 (@markers_from_second_last_field
                    "" "RPE1wt" "CEP63+CETN2" "+" eq_refl eq_refl)).
  - exact (proj2 (@markers_from_second_last_field
                    "RPE1wt" "CEP63+CETN2" "1" "+" eq_refl eq_refl)).
Defined.

End MarkersFrom.
